(** * URL-synchronised data table: [useDataTable] and [DataTableAdvancedFilterItem]

    A shallow embedding of the state-synchronisation logic of
    [src/hooks/use-data-table.ts] and
    [src/components/data-table/data-table-advanced-filter-item.tsx].

    Conventions.
    - A JavaScript string is a [string]; only emptiness, concatenation and the
      position of the one-byte separator ['.'] are ever inspected, and those
      agree between UTF-16 code units and bytes.
    - A plain JavaScript object used as a record of query parameters is a
      [gmap string _] of its own properties; object spread [{...a, ...b}]
      and object literals define properties, so the spread is the
      left-biased union [b ∪ a]. Assignments ([o[k] = v],
      [Object.assign(o, {[k]: v})]) set properties through the prototype
      chain: they are [<[k:=v]> o] for every key but [__proto__], which
      reaches the setter of [Object.prototype] (see [Js.assign]).
      [Object.keys] is the map's enumeration; nothing below depends on the
      order in which it lists the keys.
    - [URLSearchParams] is an ordered list of pairs that may repeat a key.
    - A React effect is a function from what its closure captured at render
      time to the list of calls it makes, in order. *)

From stdpp Require Import gmap strings list fin_maps.
From Stdlib Require Import Ascii String ZArith.

Local Open Scope string_scope.
Local Open Scope list_scope.
Local Open Scope Z_scope.

(** ** JavaScript built-ins used by the hook *)

Module Js.

(** The separator of every encoded parameter. *)
Definition dot : ascii := "."%char.

(** Put [c] in front of the first piece of a split. *)
Definition cons_head (c : ascii) (pieces : list string) : list string :=
  match pieces with
  | h :: t => String c h :: t
  | [] => [String c EmptyString]
  end.

(** [s.split(sep)] for a one-character separator: every occurrence cuts,
    empty pieces are kept, and the empty string splits into [[""]]. *)
Fixpoint split (sep : ascii) (s : string) : list string :=
  match s with
  | EmptyString => [EmptyString]
  | String c s' =>
      if decide (c = sep) then EmptyString :: split sep s'
      else cons_head c (split sep s')
  end.

(** [arr.join(sep)] on an array of strings. *)
Fixpoint join (sep : string) (arr : list string) : string :=
  match arr with
  | [] => EmptyString
  | [x] => x
  | x :: rest => x +:+ sep +:+ join sep rest
  end.

(** [sep] does not occur in [s]. *)
Fixpoint free_of (sep : ascii) (s : string) : Prop :=
  match s with
  | EmptyString => True
  | String c s' => c ≠ sep ∧ free_of sep s'
  end.

(** Truthiness of a string: [""] is the only falsy one. *)
Definition truthy (s : string) : bool := negb (String.eqb s EmptyString).

(** A number as [parseInt] returns it when it does not return [NaN]: an
    integer, or an infinity for a digit string too long for a double. *)
Inductive Number : Type :=
| Finite (z : Z)
| Infinite (negative : bool).

#[global] Instance Number_eq_dec : EqDecision Number.
Proof. solve_decision. Defined.

(** [o[key] = value], or [Object.assign(o, {[key]: value})], on an object
    whose prototype is [Object.prototype], for a value that is not [null]:
    the property is set, except under [__proto__], where the inherited
    setter makes an object the prototype and ignores a primitive, and no
    property appears either way. *)
Definition assign {V : Type} (key : string) (value : V)
    (o : gmap string V) : gmap string V :=
  if decide (key = "__proto__") then o else <[key := value]> o.

End Js.

Coercion Js.Finite : Z >-> Js.Number.

(** ** Data model *)

(** A value held in the query state or passed to [setQueryState]:
  [null], a number (page index, page size) or a string. *)
Inductive QueryValue : Type :=
| QNull
| QNum (n : Js.Number)
| QStr (s : string).

#[global] Instance QueryValue_eq_dec : EqDecision QueryValue.
Proof. solve_decision. Defined.

(** The value of a column filter is [unknown] in the table library. The hook
  tells apart strings (search boxes) and arrays (faceted filters, which
  hold strings); [FVOther] is any value that is neither. *)
Inductive FilterValue : Type :=
| FVString (s : string)
| FVArray (items : list string)
| FVOther.

#[global] Instance FilterValue_eq_dec : EqDecision FilterValue.
Proof. solve_decision. Defined.

(** One entry of [ColumnFiltersState]. *)
Record ColumnFilter : Type := mkColumnFilter {
filter_id : string;
filter_value : FilterValue;
}.

#[global] Instance ColumnFilter_eq_dec : EqDecision ColumnFilter.
Proof. solve_decision. Defined.

Abbreviation ColumnFiltersState := (list ColumnFilter).

(** One entry of [SortingState]. *)
Record ColumnSort : Type := mkColumnSort {
sort_desc : bool;
sort_id : string;
}.

#[global] Instance ColumnSort_eq_dec : EqDecision ColumnSort.
Proof. solve_decision. Defined.

Abbreviation SortingState := (list ColumnSort).

(** An option of a faceted filter: label and value. *)
Record FieldOption : Type := mkFieldOption {
option_label : string;
option_value : string;
}.

(** [DataTableFilterField]: [options] is optional, and a field is faceted
  exactly when it is given (an empty array is truthy as well). *)
Record DataTableFilterField : Type := mkFilterField {
field_label : string;
field_value : string;
field_placeholder : option string;
field_options : option (list FieldOption);
}.

(** The props of [useDataTable] that reach the URL logic; an omitted prop is
  [None] and takes the default of the destructuring pattern. *)
Record UseDataTableProps : Type := mkProps {
defaultPageSize : option Z;
defaultSort : option string;
enableAdvancedFilter : option bool;
filterFields : option (list DataTableFilterField);
pageCount : option Z;
}.

Abbreviation QueryState := (gmap string QueryValue).

(** [URLSearchParams]. *)
Abbreviation SearchParams := (list (string * string)).

(** ** The nuqs contract: [useQueryStates] *)

Module Nuqs.

(** A parser, possibly [withDefault]. [parse] answers [None] where the
    library's parser answers [null]. *)
Record Parser : Type := mkParser {
  parse : string → option QueryValue;
  fallback : option QueryValue;
}.

Definition parseAsString : Parser :=
  {| parse := λ s, Some (QStr s); fallback := None |}.

(** [parseInt] is the platform's; [None] stands for [NaN], the one result
    the parser turns into [null]. *)
Definition parseAsInteger (parseInt : string → option Js.Number) : Parser :=
  {| parse := λ s, QNum <$> parseInt s; fallback := None |}.

Definition withDefault (p : Parser) (d : QueryValue) : Parser :=
  {| parse := parse p; fallback := Some d |}.

(** [searchParams.get(key)]: the first value under [key]. *)
Fixpoint get (key : string) (sp : SearchParams) : option string :=
  match sp with
  | [] => None
  | (k, v) :: rest => if decide (k = key) then Some v else get key rest
  end.

(** The state of one key: the parsed parameter, else the default, else
    [null]. *)
Definition read (sp : SearchParams) (key : string) (p : Parser)
  : QueryValue :=
  default (default QNull (fallback p)) (get key sp ≫= parse p).

(** [useQueryStates(keyMap)[0]]: one entry per key of the key map. *)
Definition useQueryStates (keyMap : gmap string Parser) (sp : SearchParams)
  : QueryState :=
  map_imap (λ key p, Some (read sp key p)) keyMap.

End Nuqs.

(** ** [useDebounce] *)

Module Debounce.

Section Debounce.

Context {T : Type} `{EqDecision T}.

(** The delay, in milliseconds. *)
Variable delay : nat.

(** What happens to one use of the hook: the component renders with a
    value, a millisecond passes, or the timer callback is run. *)
Inductive Event : Type :=
| Render (value : T)
| Tick
| Fire.

#[global] Instance Event_eq_dec : EqDecision Event.
Proof. solve_decision. Defined.

(** The value of the last render, the value the hook returns, and the
    pending timer with the milliseconds elapsed since it was started. *)
Record State : Type := mkState {
  latest : T;
  debounced : T;
  timer : option nat;
}.

(** Modelled from the spec: the hook [useDebounce] of [@/hooks/use-debounce]
    is not among the sources; the spec names it "standard input debouncing"
    that avoids "thrashing navigation on every keystroke". This is the
    standard trailing debounce: the hook returns the value of its first
    render until a timer of [delay] milliseconds, restarted whenever the
    value of a render differs from the one before, has run out. *)
Definition mount (value : T) : State :=
  {| latest := value; debounced := value; timer := Some 0%nat |}.

(** Modelled from the spec: one event of the standard trailing debounce
    named above, the missing [useDebounce]. A render with a new value
    clears the pending timer and starts one; the callback can only run
    once [delay] milliseconds have elapsed, and publishes the value. *)
Definition step (st : State) (e : Event) : State :=
  match e with
  | Render value =>
      if decide (value = latest st) then st
      else {| latest := value; debounced := debounced st;
              timer := Some 0%nat |}
  | Tick =>
      {| latest := latest st; debounced := debounced st;
         timer := S <$> timer st |}
  | Fire =>
      match timer st with
      | Some elapsed =>
          if decide (delay ≤ elapsed)%nat
          then {| latest := latest st; debounced := latest st;
                  timer := None |}
          else st
      | None => st
      end
  end.

Definition run (st : State) (events : list Event) : State :=
  foldl step st events.

(** Milliseconds that pass during [events]. *)
Definition ticks (events : list Event) : nat :=
  List.length (filter (λ e, e = Tick) events).

(** No render of [events] has a value other than [value]. *)
Definition quiet (value : T) (events : list Event) : Prop :=
  Forall (λ e, ∀ other, e = Render other → other = value) events.

(** [value] was rendered, stayed the rendered value for at least [delay]
    milliseconds, and then the timer callback ran. *)
Definition settled (value : T) (events : list Event) : Prop :=
  ∃ before window after,
    events = before ++ Render value :: window ++ Fire :: after
    ∧ quiet value window
    ∧ (delay ≤ ticks window)%nat.

(** What a run from [mount first] maintains: the rendered value is still
    the first one, or it was rendered at some point after which the renders
    kept it and the timer counts no more milliseconds than have passed; and
    the published value is the first one or a settled one. *)
Definition run_invariant (first : T) (events : list Event) (st : State)
  : Prop :=
  ((latest st = first ∧ quiet first events)
   ∨ (∃ before window,
        events = before ++ Render (latest st) :: window
        ∧ quiet (latest st) window
        ∧ ∀ elapsed, timer st = Some elapsed → (elapsed ≤ ticks window)%nat))
  ∧ (debounced st = first ∨ settled (debounced st) events).

End Debounce.

Arguments Event : clear implicits.
Arguments State : clear implicits.

End Debounce.

(** ** [useDataTable] *)

Module UseDataTable.

(** Destructuring defaults of the props (lines 104-108). *)
Definition defaultPageSize_of (p : UseDataTableProps) : Z :=
  default 10 (defaultPageSize p).
Definition defaultSort_of (p : UseDataTableProps) : string :=
  default "createdAt.desc" (defaultSort p).
Definition enableAdvancedFilter_of (p : UseDataTableProps) : bool :=
  default false (enableAdvancedFilter p).
Definition filterFields_of (p : UseDataTableProps)
  : list DataTableFilterField :=
  default [] (filterFields p).

(** Lines 118-129: one string parser per filter field, assigned with
    [keyMap[value] = parseAsString], then the three reserved keys of the
    object literal, which win over a filter field of the same name. *)
Definition keyMap (parseInt : string → option Js.Number)
    (p : UseDataTableProps) : gmap string Nuqs.Parser :=
  let fields :=
    foldl (λ km f, Js.assign (field_value f) Nuqs.parseAsString km)
          ∅ (filterFields_of p) in
  <["sort" := Nuqs.withDefault Nuqs.parseAsString
                (QStr (defaultSort_of p))]>
    (<["pageSize" := Nuqs.withDefault (Nuqs.parseAsInteger parseInt)
                       (QNum (defaultPageSize_of p))]>
       (<["pageIndex" := Nuqs.withDefault (Nuqs.parseAsInteger parseInt)
                           (QNum 0)]> fields)).

(** Line 123: the query state bound to the table. *)
Definition queryState (parseInt : string → option Js.Number)
    (p : UseDataTableProps) (sp : SearchParams) : QueryState :=
  Nuqs.useQueryStates (keyMap parseInt p) sp.

(** *** Sorting *)

(** [queryState.sort?.split('.') ?? []] (line 134). The sort entry is a
    string or [null]. *)
Definition sortParts (qs : QueryState) : list string :=
  match qs !! "sort" with
  | Some (QStr s) => Js.split Js.dot s
  | _ => []
  end.

(** Lines 213-218: the initial sorting, from [[column, order]]. *)
Definition initialSorting (qs : QueryState) : SortingState :=
  let column := sortParts qs !! 0%nat in
  let order := sortParts qs !! 1%nat in
  [ {| sort_desc := bool_decide (order = Some "desc");
       sort_id := default "" column |} ].

(** Lines 223-225: the value written under [sort]. *)
Definition sortParam (sorting : SortingState) : QueryValue :=
  match sorting !! 0%nat with
  | Some s =>
      if Js.truthy (sort_id s)
      then QStr (sort_id s +:+ "." +:+
                 (if sort_desc s then "desc" else "asc"))
      else QNull
  | None => QNull
  end.

(** Lines 220-226: the argument of [setQueryState] in the sorting
    effect. *)
Definition sortingEffect (qs : QueryState) (sorting : SortingState)
  : QueryState :=
  <["sort" := sortParam sorting]> qs.

(** *** Column filters *)

(** Lines 137-142: faceted fields carry [options], search fields do not. *)
Definition filterableColumns (fields : list DataTableFilterField)
  : list DataTableFilterField :=
  filter (λ field, is_Some (field_options field)) fields.

Definition searchableColumns (fields : list DataTableFilterField)
  : list DataTableFilterField :=
  filter (λ field, ¬ is_Some (field_options field)) fields.

(** [columns.find((column) => column.value === key)]. *)
Definition findColumn (key : string) (columns : list DataTableFilterField)
  : option DataTableFilterField :=
  List.find (λ column, bool_decide (field_value column = key)) columns.

(** [columns.some((column) => column.value === key)]. *)
Definition someColumn (key : string) (columns : list DataTableFilterField)
  : bool :=
  existsb (λ column, bool_decide (field_value column = key)) columns.

(** [filters.some((column) => column.id === key)]. *)
Definition someFilter (key : string) (filters : ColumnFiltersState) : bool :=
  existsb (λ column, bool_decide (filter_id column = key)) filters.

(** [Object.keys(queryState)]. *)
Definition Object_keys (qs : QueryState) : list string :=
  (map_to_list qs).*1.

(** [value?.length] as a condition: true for a non-empty string only
    ([null], [undefined] and numbers have no truthy [length]). *)
Definition hasLength (value : option QueryValue) : bool :=
  match value with
  | Some (QStr s) => Js.truthy s
  | _ => false
  end.

(** The string behind a value whose [length] was truthy. *)
Definition asString (value : option QueryValue) : string :=
  match value with
  | Some (QStr s) => s
  | _ => EmptyString
  end.

(** The reducer of lines 147-170. *)
Definition initialColumnFilters_step (fields : list DataTableFilterField)
    (qs : QueryState) (filters : ColumnFiltersState) (key : string)
  : ColumnFiltersState :=
  let value := qs !! key in
  let filterableColumn := findColumn key (filterableColumns fields) in
  let searchableColumn := findColumn key (searchableColumns fields) in
  if hasLength value && bool_decide (is_Some filterableColumn) then
    filters ++ [ {| filter_id := key;
                    filter_value := FVArray (Js.split Js.dot (asString value)) |} ]
  else if hasLength value && bool_decide (is_Some searchableColumn) then
    filters ++ [ {| filter_id := key;
                    filter_value := FVArray [asString value] |} ]
  else filters.

(** Lines 145-173: the column filters restored from the query state. *)
Definition initialColumnFilters (fields : list DataTableFilterField)
    (qs : QueryState) : ColumnFiltersState :=
  foldl (initialColumnFilters_step fields qs) [] (Object_keys qs).

(** Lines 235-237 (before debouncing) and 243-245: the part of the column
    filters that belongs to the given columns. *)
Definition filtersOf (columns : list DataTableFilterField)
    (columnFilters : ColumnFiltersState) : ColumnFiltersState :=
  filter (λ f, is_Some (findColumn (filter_id f) columns)) columnFilters.

(** *** The filter-synchronisation effect (lines 249-308) *)

(** What an effect of the hook may call. *)
Inductive Call : Type :=
| SetMounted (b : bool)
| SetQueryState (q : QueryState)
| TableSetPageIndex (n : Z).

(** Lines 265-271: search filters whose value is a string. *)
Definition assignSearchable (params : QueryState) (column : ColumnFilter)
  : QueryState :=
  match filter_value column with
  | FVString s => Js.assign (filter_id column) (QStr s) params
  | _ => params
  end.

(** Lines 274-278: faceted filters whose value is an array. *)
Definition assignFilterable (params : QueryState) (column : ColumnFilter)
  : QueryState :=
  match filter_value column with
  | FVArray items =>
      Js.assign (filter_id column) (QStr (Js.join "." items)) params
  | _ => params
  end.

(** The condition of lines 282-289. *)
Definition isDeleted (searchable filterable : list DataTableFilterField)
    (debouncedSearchableColumnFilters filterableColumnFilters
       : ColumnFiltersState) (key : string) : bool :=
  (someColumn key searchable
   && negb (someFilter key debouncedSearchableColumnFilters))
  || (someColumn key filterable
      && negb (someFilter key filterableColumnFilters)).

(** Lines 281-292: one round of the loop over [searchParams.keys()], on
    the properties of [newParamsObject] and on whether its prototype has
    become [null]. [Object.assign(newParamsObject, {[key]: null})] sets the
    property, except under [__proto__]: there the inherited setter makes
    [null] the prototype, and only once the prototype is [null], so that no
    setter is inherited any more, does the assignment create the
    property. *)
Definition assignDeleted (searchable filterable : list DataTableFilterField)
    (debouncedSearchableColumnFilters filterableColumnFilters
       : ColumnFiltersState) (acc : QueryState * bool) (key : string)
  : QueryState * bool :=
  if isDeleted searchable filterable debouncedSearchableColumnFilters
       filterableColumnFilters key
  then
    if decide (key = "__proto__") then
      if acc.2 then (<[key := QNull]> acc.1, true) else (acc.1, true)
    else (<[key := QNull]> acc.1, acc.2)
  else acc.

(** Lines 260-292: [newParamsObject] once the three loops are done. *)
Definition newParamsObject (fields : list DataTableFilterField)
    (searchParams : SearchParams)
    (debouncedSearchableColumnFilters filterableColumnFilters
       : ColumnFiltersState) : QueryState :=
  let initial : QueryState := {[ "pageIndex" := QNum 0 ]} in
  let withSearch :=
    foldl assignSearchable initial debouncedSearchableColumnFilters in
  let withFacets := foldl assignFilterable withSearch filterableColumnFilters in
  (foldl (assignDeleted (searchableColumns fields) (filterableColumns fields)
            debouncedSearchableColumnFilters filterableColumnFilters)
         (withFacets, false) searchParams.*1).1.

(** Lines 295-298: the argument of [setQueryState]. *)
Definition pushedQueryState (fields : list DataTableFilterField)
    (qs : QueryState) (searchParams : SearchParams)
    (debouncedSearchableColumnFilters filterableColumnFilters
       : ColumnFiltersState) : QueryState :=
  newParamsObject fields searchParams debouncedSearchableColumnFilters
    filterableColumnFilters ∪ qs.

(** The body of the effect, as a function of what its closure holds. *)
Definition filterSyncEffect (enableAdvancedFilter mounted : bool)
    (fields : list DataTableFilterField) (qs : QueryState)
    (searchParams : SearchParams)
    (debouncedSearchableColumnFilters filterableColumnFilters
       : ColumnFiltersState) : list Call :=
  if enableAdvancedFilter then []
  else if negb mounted then [SetMounted true]
  else
    [ SetQueryState
        (pushedQueryState fields qs searchParams
           debouncedSearchableColumnFilters filterableColumnFilters);
      TableSetPageIndex 0 ].

(** *** Vocabulary of the statements *)

(** [key] is the [value] of a filter field that has [options]. *)
Definition namesFaceted (fields : list DataTableFilterField) (key : string)
  : Prop :=
  ∃ field, field ∈ fields ∧ field_value field = key
           ∧ is_Some (field_options field).

(** [key] is the [value] of a filter field without [options]. *)
Definition namesSearch (fields : list DataTableFilterField) (key : string)
  : Prop :=
  ∃ field, field ∈ fields ∧ field_value field = key
           ∧ field_options field = None.

(** Some filter of the list has the id [key]. *)
Definition hasFilter (filters : ColumnFiltersState) (key : string) : Prop :=
  ∃ f, f ∈ filters ∧ filter_id f = key.

(** The restored column filters whose id is [key]. *)
Definition restoredFor (fields : list DataTableFilterField)
    (qs : QueryState) (key : string) : ColumnFiltersState :=
  filter (λ f, filter_id f = key) (initialColumnFilters fields qs).

(** *** The hook over time *)

(** [JSON.stringify] and [JSON.parse] on column filters. *)
Record Json : Type := mkJson {
  stringify : ColumnFiltersState → string;
  parse : string → ColumnFiltersState;
}.

(** The delay handed to [useDebounce] (line 239). *)
Definition debounceDelay : nat := 500.

(** What the filter effect depends on between renders: the column filters
    (line 179), the query state and search parameters of the current URL,
    the [mounted] flag (line 247), the debounce of line 233 and the
    dependencies of the effect at its last run (lines 305-307). *)
Record Hook : Type := mkHook {
  columnFilters : ColumnFiltersState;
  currentQueryState : QueryState;
  currentSearchParams : SearchParams;
  mounted : bool;
  debounce : Debounce.State string;
  lastDeps : string * string;
}.

(** What makes the hook render again: the table changes the column
    filters, the URL changes, a millisecond passes, the debounce timer
    callback runs. *)
Inductive HookEvent : Type :=
| ColumnFiltersChanged (filters : ColumnFiltersState)
| UrlChanged (qs : QueryState) (sp : SearchParams)
| Tick
| Fire.

(** Lines 234-238: the string handed to [useDebounce]. *)
Definition searchableJson (J : Json) (fields : list DataTableFilterField)
    (filters : ColumnFiltersState) : string :=
  stringify J (filtersOf (searchableColumns fields) filters).

(** What the debounce of line 233 sees of an event. A render that leaves
    the debounced string as it was does not touch the timer. *)
Definition timeline (J : Json) (fields : list DataTableFilterField)
    (e : HookEvent) : list (Debounce.Event string) :=
  match e with
  | ColumnFiltersChanged filters =>
      [Debounce.Render (searchableJson J fields filters)]
  | UrlChanged _ _ => []
  | Tick => [Debounce.Tick]
  | Fire => [Debounce.Fire]
  end.

(** The [mounted] state after the calls of an effect. *)
Definition mountedAfter (mounted : bool) (calls : list Call) : bool :=
  foldl (λ m c, match c with SetMounted b => b | _ => m end) mounted calls.

(** Lines 232-245 and 305-307 for one render. *)
Definition debouncedFilters (J : Json) (h : Hook) : ColumnFiltersState :=
  parse J (Debounce.debounced (debounce h)).

Definition filterableFilters (fields : list DataTableFilterField) (h : Hook)
  : ColumnFiltersState :=
  filtersOf (filterableColumns fields) (columnFilters h).

Definition depsOf (J : Json) (fields : list DataTableFilterField) (h : Hook)
  : string * string :=
  (stringify J (debouncedFilters J h),
   stringify J (filterableFilters fields h)).

(** The calls of the filter effect when it runs in the render of [h]. *)
Definition effectCalls (J : Json) (p : UseDataTableProps) (h : Hook)
  : list Call :=
  filterSyncEffect (enableAdvancedFilter_of p) (mounted h)
    (filterFields_of p) (currentQueryState h) (currentSearchParams h)
    (debouncedFilters J h) (filterableFilters (filterFields_of p) h).

(** The first render: state initialisers and the first run of the
    effect. *)
Definition hookMount (J : Json) (p : UseDataTableProps) (qs : QueryState)
    (sp : SearchParams) : Hook * list Call :=
  let filters := initialColumnFilters (filterFields_of p) qs in
  let h :=
    {| columnFilters := filters;
       currentQueryState := qs;
       currentSearchParams := sp;
       mounted := false;
       debounce :=
         Debounce.mount (searchableJson J (filterFields_of p) filters);
       lastDeps := (EmptyString, EmptyString) |} in
  let calls := effectCalls J p h in
  ({| columnFilters := columnFilters h;
      currentQueryState := qs;
      currentSearchParams := sp;
      mounted := mountedAfter false calls;
      debounce := debounce h;
      lastDeps := depsOf J (filterFields_of p) h |},
   calls).

(** The state an event leaves for the next render. *)
Definition receive (J : Json) (p : UseDataTableProps) (h : Hook)
    (e : HookEvent) : Hook :=
  {| columnFilters :=
       match e with
       | ColumnFiltersChanged filters => filters
       | _ => columnFilters h
       end;
     currentQueryState :=
       match e with UrlChanged qs _ => qs | _ => currentQueryState h end;
     currentSearchParams :=
       match e with UrlChanged _ sp => sp | _ => currentSearchParams h end;
     mounted := mounted h;
     debounce :=
       foldl (Debounce.step debounceDelay) (debounce h)
             (timeline J (filterFields_of p) e);
     lastDeps := lastDeps h |}.

(** One event and the render after it: the effect runs when one of its
    two dependencies changed. *)
Definition hookStep (J : Json) (p : UseDataTableProps) (h : Hook)
    (e : HookEvent) : Hook * list Call :=
  let h' := receive J p h e in
  let deps := depsOf J (filterFields_of p) h' in
  if decide (deps = lastDeps h') then (h', [])
  else
    let calls := effectCalls J p h' in
    ({| columnFilters := columnFilters h';
        currentQueryState := currentQueryState h';
        currentSearchParams := currentSearchParams h';
        mounted := mountedAfter (mounted h') calls;
        debounce := debounce h';
        lastDeps := deps |},
     calls).

(** A run from the first render: the state reached and every call made. *)
Definition hookRun (J : Json) (p : UseDataTableProps) (qs : QueryState)
    (sp : SearchParams) (events : list HookEvent) : Hook * list Call :=
  foldl (λ acc e, let r := hookStep J p acc.1 e in (r.1, acc.2 ++ r.2))
        (hookMount J p qs sp) events.

(** *** Pagination (lines 183-210) *)

(** [PaginationState] of the table library. *)
Record PaginationState : Type := mkPagination {
  pageIndex : Js.Number;
  pageSize : Js.Number;
}.

(** Lines 183-187: the initial pagination copies [queryState.pageIndex] and
    [queryState.pageSize], which the parsers of the key map make numbers;
    [None] stands for a query state outside that type. *)
Definition initialPagination (qs : QueryState) : option PaginationState :=
  match qs !! "pageIndex", qs !! "pageSize" with
  | Some (QNum index), Some (QNum size) =>
      Some {| pageIndex := index; pageSize := size |}
  | _, _ => None
  end.

(** Lines 197-207: the argument of [setQueryState] in the pagination
    effect. *)
Definition paginationEffect (qs : QueryState) (pagination : PaginationState)
  : QueryState :=
  <["pageSize" := QNum (pageSize pagination)]>
    (<["pageIndex" := QNum (pageIndex pagination)]> qs).

(** The three keys the hook adds to the key map itself. *)
Definition reservedKeys : list string := ["pageIndex"; "pageSize"; "sort"].

End UseDataTable.

(** ** [DataTableAdvancedFilterItem] *)

Module AdvancedFilterItem.

(** A value of the [params] record of [createQueryString]. *)
Inductive ParamValue : Type :=
| PNull
| PString (s : string)
| PNumber (n : Z).

(** [String(value)] for a value that is not [null]; how a number prints is
    the platform's. *)
Definition String_ (numberToString : Z → string) (value : ParamValue)
  : string :=
  match value with
  | PString s => s
  | PNumber n => numberToString n
  | PNull => "null"
  end.

(** [URLSearchParams.prototype.delete]: every pair under [key] goes. *)
Definition delete (key : string) (sp : SearchParams) : SearchParams :=
  filter (λ kv, kv.1 ≠ key) sp.

(** [URLSearchParams.prototype.set]: the first pair under [key] takes the
    value and the others go; without such a pair one is appended. *)
Fixpoint set (key value : string) (sp : SearchParams) : SearchParams :=
  match sp with
  | [] => [(key, value)]
  | (k, v) :: rest =>
      if decide (k = key) then (key, value) :: delete key rest
      else (k, v) :: set key value rest
  end.

(** [URLSearchParams.prototype.getAll]. *)
Definition getAll (key : string) (sp : SearchParams) : list string :=
  (filter (λ kv, kv.1 = key) sp).*2.

(** Lines 188-194: the loop over [Object.entries(params)]. *)
Definition applyParam (numberToString : Z → string) (sp : SearchParams)
    (entry : string * ParamValue) : SearchParams :=
  match entry.2 with
  | PNull => delete entry.1 sp
  | value => set entry.1 (String_ numberToString value) sp
  end.

(** Lines 186-194: [newSearchParams] after the loop. Copying the current
    parameters through [toString] and the constructor gives them back. *)
Definition newSearchParams (numberToString : Z → string) (sp : SearchParams)
    (params : list (string * ParamValue)) : SearchParams :=
  foldl (applyParam numberToString) sp params.

(** Lines 184-199; [toString] is the serialiser of [URLSearchParams]. *)
Definition createQueryString (toString : SearchParams → string)
    (numberToString : Z → string) (sp : SearchParams)
    (params : list (string * ParamValue)) : string :=
  toString (newSearchParams numberToString sp params).

(** [router.push(href, { scroll })]. *)
Inductive Call : Type :=
| RouterPush (href : string) (scroll : bool).

(** The template literal of lines 205-207. *)
Definition filterParam (debounceValue filterVariety : string) : string :=
  debounceValue +:+
  (if bool_decide (0 < String.length debounceValue)%nat
   then "." +:+ filterVariety else "").

(** Lines 201-227: the body of the effect on [debounceValue] and
    [filterVariety]. [selected] is [selectedOption.value]. *)
Definition inputEffect (toString : SearchParams → string)
    (numberToString : Z → string) (pathname : string) (sp : SearchParams)
    (selected debounceValue filterVariety : string) : list Call :=
  (if bool_decide (0 < String.length debounceValue)%nat then
     [ RouterPush
         (pathname +:+ "?" +:+
          createQueryString toString numberToString sp
            [ (selected, PString (filterParam debounceValue filterVariety)) ])
         false ]
   else [])
  ++
  (if bool_decide (String.length debounceValue = 0%nat) then
     [ RouterPush
         (pathname +:+ "?" +:+
          createQueryString toString numberToString sp [ (selected, PNull) ])
         false ]
   else []).

(** *** The component over time *)

(** The delay handed to [useDebounce] (line 55). *)
Definition debounceDelay : nat := 500.

(** Lines 69-74: the first filter variety. [hasItems] is
    [selectedOption.items.length > 0]. *)
Definition filterVarieties (hasItems : bool) : list string :=
  if hasItems then ["is"; "is not"]
  else ["contains"; "does not contain"; "is"; "is not"].

Definition initialVariety (hasItems : bool) : string :=
  default "" (head (filterVarieties hasItems)).

(** What the input effect depends on between renders: the input text
    (line 54), its debounce (line 55), the filter variety (line 74), the
    search parameters of the current URL and the dependencies of the
    effect at its last run (line 227). *)
Record Item : Type := mkItem {
  value : string;
  debounce : Debounce.State string;
  filterVariety : string;
  currentSearchParams : SearchParams;
  lastDeps : string * string;
}.

(** What makes the component render again: the user types, picks a filter
    variety, the URL changes, a millisecond passes, the debounce timer
    callback runs. *)
Inductive ItemEvent : Type :=
| Typed (text : string)
| VarietySelected (variety : string)
| UrlChanged (sp : SearchParams)
| Tick
| Fire.

(** What the debounce of line 55 sees of an event. *)
Definition timeline (e : ItemEvent) : list (Debounce.Event string) :=
  match e with
  | Typed text => [Debounce.Render text]
  | VarietySelected _ => []
  | UrlChanged _ => []
  | Tick => [Debounce.Tick]
  | Fire => [Debounce.Fire]
  end.

(** The props and platform functions a render closes over. *)
Record Env : Type := mkEnv {
  toString : SearchParams → string;
  numberToString : Z → string;
  pathname : string;
  selected : string;
  hasItems : bool;
}.

(** The calls of the input effect when it runs in the render of [it]. *)
Definition effectCalls (E : Env) (it : Item) : list Call :=
  inputEffect (toString E) (numberToString E) (pathname E)
    (currentSearchParams it) (selected E)
    (Debounce.debounced (debounce it)) (filterVariety it).

Definition depsOf (it : Item) : string * string :=
  (Debounce.debounced (debounce it), filterVariety it).

(** The first render and the first run of the effect. *)
Definition itemMount (E : Env) (sp : SearchParams) : Item * list Call :=
  let it :=
    {| value := EmptyString;
       debounce := Debounce.mount EmptyString;
       filterVariety := initialVariety (hasItems E);
       currentSearchParams := sp;
       lastDeps := (EmptyString, initialVariety (hasItems E)) |} in
  (it, effectCalls E it).

(** The state an event leaves for the next render. *)
Definition receive (it : Item) (e : ItemEvent) : Item :=
  {| value := match e with Typed text => text | _ => value it end;
     debounce :=
       foldl (Debounce.step debounceDelay) (debounce it) (timeline e);
     filterVariety :=
       match e with
       | VarietySelected variety => variety
       | _ => filterVariety it
       end;
     currentSearchParams :=
       match e with UrlChanged sp => sp | _ => currentSearchParams it end;
     lastDeps := lastDeps it |}.

(** One event and the render after it: the effect runs when one of its
    two dependencies changed. *)
Definition itemStep (E : Env) (it : Item) (e : ItemEvent)
  : Item * list Call :=
  let it' := receive it e in
  if decide (depsOf it' = lastDeps it') then (it', [])
  else
    ({| value := value it';
        debounce := debounce it';
        filterVariety := filterVariety it';
        currentSearchParams := currentSearchParams it';
        lastDeps := depsOf it' |},
     effectCalls E it').

(** A run from the first render: the state reached and every call made. *)
Definition itemRun (E : Env) (sp : SearchParams) (events : list ItemEvent)
  : Item * list Call :=
  foldl (λ acc e, let r := itemStep E acc.1 e in (r.1, acc.2 ++ r.2))
        (itemMount E sp) events.

End AdvancedFilterItem.

(** ** The callers: [TasksTable] and the variant page *)

Module TasksTable.

(** [tasks-table.tsx], lines 31-38: the props [TasksTable] hands to
    [useDataTable]. The page size is never passed; the sort is passed on as
    received, the feature flag comes from the provider, [filterFields] from
    the column module and [pageCount] from the fetched data. *)
Definition useDataTableProps (defaultSort : option string)
    (enableAdvancedFilter : bool) (filterFields : list DataTableFilterField)
    (pageCount : Z) : UseDataTableProps :=
  {| defaultPageSize := None;
     defaultSort := defaultSort;
     enableAdvancedFilter := Some enableAdvancedFilter;
     filterFields := Some filterFields;
     pageCount := Some pageCount |}.

(** [variant/page.tsx], line 55: [<TasksTable defaultSort="title.asc" />]. *)
Definition variantPageProps (enableAdvancedFilter : bool)
    (filterFields : list DataTableFilterField) (pageCount : Z)
  : UseDataTableProps :=
  useDataTableProps (Some "title.asc") enableAdvancedFilter filterFields
    pageCount.

End TasksTable.

(** * Properties *)

(** ** Strings and arrays *)

Section JsFacts.

Lemma append_cons (c : ascii) (a b : string) :
  String c a +:+ b = String c (a +:+ b).
Proof. reflexivity. Qed.

Lemma append_empty_l (b : string) : EmptyString +:+ b = b.
Proof. reflexivity. Qed.

Lemma truthy_true (s : string) : Js.truthy s = true ↔ s ≠ EmptyString.
Proof.
  unfold Js.truthy. destruct s as [|c s]; simpl.
  - split; [discriminate | congruence].
  - split; [discriminate | reflexivity].
Qed.

Lemma truthy_false (s : string) : Js.truthy s = false ↔ s = EmptyString.
Proof.
  unfold Js.truthy. destruct s as [|c s]; simpl.
  - split; reflexivity.
  - split; discriminate.
Qed.

Lemma length_pos_truthy (s : string) :
  bool_decide (0 < String.length s)%nat = Js.truthy s.
Proof. destruct s; reflexivity. Qed.

Lemma length_zero_truthy (s : string) :
  bool_decide (String.length s = 0%nat) = negb (Js.truthy s).
Proof. destruct s; reflexivity. Qed.

Lemma split_not_nil (sep : ascii) (s : string) : Js.split sep s ≠ [].
Proof.
  induction s as [|c s IH]; simpl; [discriminate|].
  destruct (decide (c = sep)); [discriminate|].
  destruct (Js.split sep s); [contradiction | discriminate].
Qed.

(** A string without the separator is a single piece. *)
Lemma split_free (sep : ascii) (s : string) :
  Js.free_of sep s → Js.split sep s = [s].
Proof.
  induction s as [|c s IH]; simpl; [reflexivity|].
  intros [Hc Hs]. rewrite decide_False by exact Hc.
  rewrite IH by exact Hs. reflexivity.
Qed.

(** The first separator after a separator-free prefix cuts there. *)
Lemma split_prefix (sep : ascii) (a b : string) :
  Js.free_of sep a →
  Js.split sep (a +:+ String sep b) = a :: Js.split sep b.
Proof.
  induction a as [|c a IH]; intros Ha.
  - rewrite append_empty_l. simpl. rewrite decide_True; reflexivity.
  - destruct Ha as [Hc Ha]. rewrite append_cons. simpl.
    rewrite decide_False by exact Hc. rewrite IH by exact Ha. reflexivity.
Qed.

(** Splitting undoes joining when no item holds the separator. *)
Lemma split_join (sep : ascii) (arr : list string) :
  arr ≠ [] → Forall (Js.free_of sep) arr →
  Js.split sep (Js.join (String sep EmptyString) arr) = arr.
Proof.
  induction arr as [|x rest IH]; [congruence|].
  intros _ Hall. apply Forall_cons in Hall as [Hx Hrest].
  destruct rest as [|y rest].
  - simpl. apply split_free, Hx.
  - change (Js.join (String sep EmptyString) (x :: y :: rest))
      with (x +:+ String sep EmptyString
              +:+ Js.join (String sep EmptyString) (y :: rest)).
    rewrite append_cons, append_empty_l, split_prefix by exact Hx.
    rewrite IH; [reflexivity | discriminate | exact Hrest].
Qed.

(** A joined array is empty only for [[]] and [[""]]. *)
Lemma join_empty (sep : ascii) (arr : list string) :
  Js.join (String sep EmptyString) arr = EmptyString →
  arr = [] ∨ arr = [EmptyString].
Proof.
  destruct arr as [|x [|y rest]]; simpl; [auto | intros ->; auto |].
  destruct x; rewrite ?append_cons, ?append_empty_l; discriminate.
Qed.

(** Assignment to a key leaves every other key alone, sets the key itself
    unless it is [__proto__], and never touches [__proto__]. *)
Lemma lookup_assign_ne {V : Type} (key other : string) (value : V)
    (o : gmap string V) :
  key ≠ other → Js.assign key value o !! other = o !! other.
Proof.
  intros Hne. unfold Js.assign. case_decide; [reflexivity|].
  by apply lookup_insert_ne.
Qed.

Lemma lookup_assign_eq {V : Type} (key : string) (value : V)
    (o : gmap string V) :
  key ≠ "__proto__" → Js.assign key value o !! key = Some value.
Proof.
  intros Hne. unfold Js.assign. rewrite decide_False by exact Hne.
  apply lookup_insert_eq.
Qed.

Lemma lookup_assign_proto {V : Type} (key : string) (value : V)
    (o : gmap string V) :
  Js.assign key value o !! "__proto__" = o !! "__proto__".
Proof.
  unfold Js.assign. case_decide as Hkey; [reflexivity|].
  by apply lookup_insert_ne.
Qed.

End JsFacts.

(** ** Sorting and the URL *)

(** C1, amended: a sorting state whose first entry has a non-empty column
    id is written under [sort] as the id, a dot and [desc] or [asc]; when
    the id holds no dot, reading that parameter back by splitting on the dot
    gives the same column id and the same direction. *)
Theorem sort_round_trip (sorting : SortingState) (s : ColumnSort)
    (qs : QueryState) :
  sorting !! 0%nat = Some s →
  sort_id s ≠ EmptyString →
  UseDataTable.sortingEffect qs sorting !! "sort"
    = Some (QStr (sort_id s +:+ "." +:+
                  (if sort_desc s then "desc" else "asc")))
  ∧ (Js.free_of Js.dot (sort_id s) →
     ∀ restored : QueryState,
       restored !! "sort" = UseDataTable.sortingEffect qs sorting !! "sort" →
       UseDataTable.initialSorting restored = [s]).
Proof.
  intros Hfirst Hid.
  assert (Hparam : UseDataTable.sortingEffect qs sorting !! "sort"
            = Some (QStr (sort_id s +:+ "." +:+
                          (if sort_desc s then "desc" else "asc")))).
  { unfold UseDataTable.sortingEffect, UseDataTable.sortParam.
    rewrite lookup_insert_eq, Hfirst.
    apply truthy_true in Hid. rewrite Hid. reflexivity. }
  split; [exact Hparam|].
  intros Hfree restored Hrestored. rewrite Hparam in Hrestored.
  unfold UseDataTable.initialSorting, UseDataTable.sortParts.
  rewrite Hrestored.
  change ("." +:+ (if sort_desc s then "desc" else "asc"))
    with (String Js.dot (if sort_desc s then "desc" else "asc")).
  rewrite split_prefix by exact Hfree.
  destruct s as [[] id]; reflexivity.
Qed.

Lemma sort_round_trip_witness :
  UseDataTable.sortingEffect ∅ [mkColumnSort true "title"] !! "sort"
    = Some (QStr "title.desc")
  ∧ UseDataTable.initialSorting
      (UseDataTable.sortingEffect ∅ [mkColumnSort true "title"])
    = [mkColumnSort true "title"].
Proof.
  destruct (sort_round_trip [mkColumnSort true "title"]
              (mkColumnSort true "title") ∅) as [Hw Hr];
    [reflexivity | discriminate |].
  split; [exact Hw|].
  apply Hr; [|reflexivity].
  simpl. repeat split; discriminate.
Defined.

(** C1 as stated fails on a column id that holds a dot: [a.b], descending,
    is written as [a.b.desc] and read back as column [a], ascending. *)
Lemma sort_round_trip_dotted_id :
  sort_id (mkColumnSort true "a.b") ≠ EmptyString
  ∧ UseDataTable.sortingEffect ∅ [mkColumnSort true "a.b"] !! "sort"
    = Some (QStr "a.b.desc")
  ∧ UseDataTable.initialSorting
      (UseDataTable.sortingEffect ∅ [mkColumnSort true "a.b"])
    = [mkColumnSort false "a"]
  ∧ UseDataTable.initialSorting
      (UseDataTable.sortingEffect ∅ [mkColumnSort true "a.b"])
    ≠ [mkColumnSort true "a.b"].
Proof.
  split; [discriminate|]. split; [reflexivity|]. split; [reflexivity|].
  discriminate.
Qed.

(** ** Default query state *)

(** C5: without URL query parameters the query state bound to the table
    holds page index 0, the default page size (10 when the prop is omitted)
    and the default sort ([createdAt.desc] when the prop is omitted). *)
Theorem query_state_defaults (parseInt : string → option Js.Number)
    (p : UseDataTableProps) :
  UseDataTable.queryState parseInt p [] !! "pageIndex" = Some (QNum 0)
  ∧ UseDataTable.queryState parseInt p [] !! "pageSize"
    = Some (QNum (default 10 (defaultPageSize p)))
  ∧ UseDataTable.queryState parseInt p [] !! "sort"
    = Some (QStr (default "createdAt.desc" (defaultSort p))).
Proof.
  unfold UseDataTable.queryState, Nuqs.useQueryStates, UseDataTable.keyMap.
  rewrite !map_lookup_imap.
  repeat split.
  - rewrite lookup_insert_ne by discriminate.
    rewrite lookup_insert_ne by discriminate.
    rewrite lookup_insert_eq. reflexivity.
  - rewrite lookup_insert_ne by discriminate.
    rewrite lookup_insert_eq. reflexivity.
  - rewrite lookup_insert_eq. reflexivity.
Qed.

(** ** Column lookups *)

Section ColumnFacts.

Import UseDataTable.

Lemma findColumn_is_Some (key : string) (columns : list DataTableFilterField) :
  is_Some (findColumn key columns)
  ↔ ∃ column, column ∈ columns ∧ field_value column = key.
Proof.
  unfold findColumn. split.
  - intros [column Hfind]. apply find_some in Hfind as [Hin Hkey].
    exists column. split; [by apply list_elem_of_In|].
    by apply bool_decide_eq_true in Hkey.
  - intros (column & Hin & Hkey).
    destruct (List.find _ columns) as [found|] eqn:Hfind; [eauto|].
    apply list_elem_of_In in Hin.
    pose proof (find_none _ _ Hfind _ Hin) as Hno. simpl in Hno.
    apply bool_decide_eq_false in Hno. contradiction.
Qed.

Lemma someColumn_true (key : string) (columns : list DataTableFilterField) :
  someColumn key columns = true
  ↔ ∃ column, column ∈ columns ∧ field_value column = key.
Proof.
  unfold someColumn. rewrite existsb_exists. split.
  - intros (column & Hin & Hkey). exists column.
    split; [by apply list_elem_of_In | by apply bool_decide_eq_true in Hkey].
  - intros (column & Hin & Hkey). exists column.
    split; [by apply list_elem_of_In | by apply bool_decide_eq_true].
Qed.

Lemma someFilter_true (key : string) (filters : ColumnFiltersState) :
  someFilter key filters = true ↔ hasFilter filters key.
Proof.
  unfold someFilter, hasFilter. rewrite existsb_exists. split.
  - intros (f & Hin & Hkey). exists f.
    split; [by apply list_elem_of_In | by apply bool_decide_eq_true in Hkey].
  - intros (f & Hin & Hkey). exists f.
    split; [by apply list_elem_of_In | by apply bool_decide_eq_true].
Qed.

Lemma filterable_named (fields : list DataTableFilterField) (key : string) :
  (∃ column, column ∈ filterableColumns fields ∧ field_value column = key)
  ↔ namesFaceted fields key.
Proof.
  unfold filterableColumns, namesFaceted. split.
  - intros (column & Hin & Hkey). apply list_elem_of_filter in Hin as [Ho Hin].
    eauto.
  - intros (column & Hin & Hkey & Ho). exists column. split; [|done].
    apply list_elem_of_filter. done.
Qed.

Lemma searchable_named (fields : list DataTableFilterField) (key : string) :
  (∃ column, column ∈ searchableColumns fields ∧ field_value column = key)
  ↔ namesSearch fields key.
Proof.
  unfold searchableColumns, namesSearch. split.
  - intros (column & Hin & Hkey). apply list_elem_of_filter in Hin as [Ho Hin].
    exists column. repeat split; [done..|].
    destruct (field_options column); [|done]. exfalso. apply Ho. eauto.
  - intros (column & Hin & Hkey & Ho). exists column. split; [|done].
    apply list_elem_of_filter. split; [|done]. rewrite Ho. by intros [? ?].
Qed.

End ColumnFacts.

(** ** Restoring column filters from the query state *)

Section Restore.

Import UseDataTable.

Variable fields : list DataTableFilterField.
Variable qs : QueryState.

(** The reducer only ever appends what the key itself contributes. *)
Lemma step_appends (filters : ColumnFiltersState) (key : string) :
  initialColumnFilters_step fields qs filters key
  = filters ++ initialColumnFilters_step fields qs [] key.
Proof.
  unfold initialColumnFilters_step.
  repeat case_match; simpl; rewrite ?app_nil_r; reflexivity.
Qed.

Lemma step_own_id (key other : string) :
  filter (λ f, filter_id f = other)
         (initialColumnFilters_step fields qs [] key)
  = if decide (key = other)
    then initialColumnFilters_step fields qs [] key else [].
Proof.
  unfold initialColumnFilters_step.
  destruct (decide (key = other)) as [->|Hne];
    repeat case_match; simpl; try reflexivity.
  - rewrite filter_cons_True by reflexivity. reflexivity.
  - rewrite filter_cons_True by reflexivity. reflexivity.
  - rewrite filter_cons_False by exact Hne. reflexivity.
  - rewrite filter_cons_False by exact Hne. reflexivity.
Qed.

Lemma fold_for_key (keys : list string) (acc : ColumnFiltersState)
    (key : string) :
  NoDup keys →
  filter (λ f, filter_id f = key)
         (foldl (initialColumnFilters_step fields qs) acc keys)
  = filter (λ f, filter_id f = key) acc
    ++ (if decide (key ∈ keys)
        then initialColumnFilters_step fields qs [] key else []).
Proof.
  revert acc. induction keys as [|k keys IH]; intros acc Hnd.
  - cbn [foldl]. rewrite decide_False by apply not_elem_of_nil.
    by rewrite app_nil_r.
  - apply NoDup_cons in Hnd as [Hk Hnd]. cbn [foldl].
    rewrite IH by exact Hnd.
    rewrite step_appends, filter_app, step_own_id, <- app_assoc.
    f_equal.
    destruct (decide (k = key)) as [->|Hne].
    + rewrite decide_False by exact Hk.
      rewrite decide_True by apply list_elem_of_here.
      by rewrite app_nil_r.
    + cbn [app]. destruct (decide (key ∈ keys)) as [Hin|Hout].
      * rewrite decide_True by (by apply list_elem_of_further). reflexivity.
      * rewrite decide_False; [reflexivity|].
        intros [->|Hin]%elem_of_cons; [by apply Hne | by apply Hout].
Qed.

(** What is restored under a key is what the reducer contributes for it. *)
Lemma restoredFor_step (key : string) :
  restoredFor fields qs key = initialColumnFilters_step fields qs [] key.
Proof.
  unfold restoredFor, initialColumnFilters, Object_keys.
  rewrite fold_for_key by apply NoDup_fst_map_to_list.
  rewrite filter_nil. simpl.
  destruct (decide (key ∈ (map_to_list qs).*1)) as [Hin|Hout]; [reflexivity|].
  assert (qs !! key = None) as Hnone.
  { destruct (qs !! key) as [v|] eqn:Hv; [|reflexivity].
    exfalso. apply Hout. apply list_elem_of_fmap.
    exists (key, v). split; [reflexivity|]. by apply elem_of_map_to_list. }
  unfold initialColumnFilters_step. rewrite Hnone. reflexivity.
Qed.

Lemma restoredFor_faceted (key s : string) :
  qs !! key = Some (QStr s) → s ≠ EmptyString → namesFaceted fields key →
  restoredFor fields qs key
  = [mkColumnFilter key (FVArray (Js.split Js.dot s))].
Proof.
  intros Hv Hs Hn. rewrite restoredFor_step.
  unfold initialColumnFilters_step. rewrite Hv. simpl.
  apply truthy_true in Hs. rewrite Hs. simpl.
  rewrite bool_decide_eq_true_2; [reflexivity|].
  by apply findColumn_is_Some, filterable_named.
Qed.

Lemma restoredFor_search (key s : string) :
  qs !! key = Some (QStr s) → s ≠ EmptyString →
  ¬ namesFaceted fields key → namesSearch fields key →
  restoredFor fields qs key = [mkColumnFilter key (FVArray [s])].
Proof.
  intros Hv Hs Hnf Hn. rewrite restoredFor_step.
  unfold initialColumnFilters_step. rewrite Hv. simpl.
  apply truthy_true in Hs. rewrite Hs. simpl.
  rewrite bool_decide_eq_false_2.
  2:{ intros Hsome. by apply Hnf, filterable_named, findColumn_is_Some. }
  rewrite bool_decide_eq_true_2; [reflexivity|].
  by apply findColumn_is_Some, searchable_named.
Qed.

Lemma restoredFor_no_text (key : string) :
  (∀ s, qs !! key = Some (QStr s) → s = EmptyString) →
  restoredFor fields qs key = [].
Proof.
  intros Hv. rewrite restoredFor_step. unfold initialColumnFilters_step.
  assert (hasLength (qs !! key) = false) as ->; [|reflexivity].
  destruct (qs !! key) as [[| |s]|]; try reflexivity.
  simpl. apply truthy_false. by apply Hv.
Qed.

Lemma restoredFor_no_field (key : string) :
  ¬ namesFaceted fields key → ¬ namesSearch fields key →
  restoredFor fields qs key = [].
Proof.
  intros Hnf Hns. rewrite restoredFor_step. unfold initialColumnFilters_step.
  rewrite (bool_decide_eq_false_2 (is_Some (findColumn key (filterableColumns fields)))).
  2:{ intros Hsome. by apply Hnf, filterable_named, findColumn_is_Some. }
  rewrite (bool_decide_eq_false_2 (is_Some (findColumn key (searchableColumns fields)))).
  2:{ intros Hsome. by apply Hns, searchable_named, findColumn_is_Some. }
  rewrite !andb_false_r. reflexivity.
Qed.

End Restore.

(** C3, amended: for a key of the query state whose value is a non-empty
    string, the restored column filter is the string split on the dot when
    the key names a filter field with options, and the one-element array
    holding the string when it names a filter field without options and no
    filter field with options; a key that is absent, or whose value is null
    or empty, or that names no filter field, restores no column filter. *)
Theorem restore_filters_from_url (fields : list DataTableFilterField)
    (qs : QueryState) (key : string) :
  (∀ s, qs !! key = Some (QStr s) → s ≠ EmptyString →
        UseDataTable.namesFaceted fields key →
        UseDataTable.restoredFor fields qs key
        = [mkColumnFilter key (FVArray (Js.split Js.dot s))])
  ∧ (∀ s, qs !! key = Some (QStr s) → s ≠ EmptyString →
          UseDataTable.namesSearch fields key →
          ¬ UseDataTable.namesFaceted fields key →
          UseDataTable.restoredFor fields qs key
          = [mkColumnFilter key (FVArray [s])])
  ∧ (qs !! key = None ∨ qs !! key = Some QNull
     ∨ qs !! key = Some (QStr EmptyString) →
     UseDataTable.restoredFor fields qs key = [])
  ∧ (¬ UseDataTable.namesFaceted fields key →
     ¬ UseDataTable.namesSearch fields key →
     UseDataTable.restoredFor fields qs key = []).
Proof.
  repeat split.
  - intros s Hv Hs Hn. by apply restoredFor_faceted.
  - intros s Hv Hs Hn Hnf. by apply restoredFor_search.
  - intros Hv. apply restoredFor_no_text. intros s Hs.
    destruct Hv as [Hv|[Hv|Hv]]; congruence.
  - intros Hnf Hns. by apply restoredFor_no_field.
Qed.

Lemma restore_filters_from_url_witness :
  let fields :=
    [ mkFilterField "Title" "title" (Some "Search titles") None;
      mkFilterField "Status" "status" None
        (Some [mkFieldOption "Todo" "todo"; mkFieldOption "Done" "done"]) ] in
  let qs : QueryState :=
    <["title" := QStr "foo"]>
      (<["status" := QStr "todo.done"]>
         (<["owner" := QStr "ann"]> (<["pageIndex" := QNum 0]> ∅))) in
  UseDataTable.restoredFor fields qs "status"
    = [mkColumnFilter "status" (FVArray ["todo"; "done"])]
  ∧ UseDataTable.restoredFor fields qs "title"
    = [mkColumnFilter "title" (FVArray ["foo"])]
  ∧ UseDataTable.restoredFor fields qs "priority" = []
  ∧ UseDataTable.restoredFor fields qs "owner" = [].
Proof.
  intros fields qs.
  assert (Hstatus : UseDataTable.namesFaceted fields "status").
  { eexists. split; [apply list_elem_of_further, list_elem_of_here|].
    split; [reflexivity | by eexists]. }
  assert (Htitle : UseDataTable.namesSearch fields "title").
  { eexists. split; [apply list_elem_of_here|]. split; reflexivity. }
  assert (Hfacets : ∀ key, key ≠ "status" →
            ¬ UseDataTable.namesFaceted fields key).
  { intros key Hkey (field & Hin & Hvalue & Ho).
    apply elem_of_cons in Hin as [->|Hin]; [by destruct Ho|].
    apply list_elem_of_singleton in Hin as ->. by apply Hkey. }
  assert (Hsearch : ∀ key, key ≠ "title" →
            ¬ UseDataTable.namesSearch fields key).
  { intros key Hkey (field & Hin & Hvalue & Ho).
    apply elem_of_cons in Hin as [->|Hin]; [by apply Hkey|].
    apply list_elem_of_singleton in Hin as ->. discriminate. }
  split; [|split; [|split]].
  - destruct (restore_filters_from_url fields qs "status") as (Hf & _).
    apply (Hf "todo.done"); [reflexivity | discriminate | exact Hstatus].
  - destruct (restore_filters_from_url fields qs "title") as (_ & Hs & _).
    apply (Hs "foo"); [reflexivity | discriminate | exact Htitle |].
    apply Hfacets. discriminate.
  - destruct (restore_filters_from_url fields qs "priority")
      as (_ & _ & Hn & _).
    apply Hn. left. reflexivity.
  - destruct (restore_filters_from_url fields qs "owner")
      as (_ & _ & _ & Hn).
    apply Hn; [apply Hfacets | apply Hsearch]; discriminate.
Defined.

(** C3 as stated fails on a key that names both a filter field with options
    and one without: the field with options wins, and the string is split
    although a field without options has that name. *)
Lemma restore_key_naming_both_kinds :
  let fields :=
    [ mkFilterField "Status" "status" None
        (Some [mkFieldOption "Todo" "todo"]);
      mkFilterField "Status text" "status" None None ] in
  let qs : QueryState := {[ "status" := QStr "a.b" ]} in
  UseDataTable.namesSearch fields "status"
  ∧ qs !! "status" = Some (QStr "a.b")
  ∧ UseDataTable.restoredFor fields qs "status"
    = [mkColumnFilter "status" (FVArray ["a"; "b"])]
  ∧ UseDataTable.restoredFor fields qs "status"
    ≠ [mkColumnFilter "status" (FVArray ["a.b"])].
Proof.
  intros fields qs. split.
  { eexists. split; [apply list_elem_of_further, list_elem_of_here|].
    split; reflexivity. }
  split; [reflexivity|]. split; [vm_compute; reflexivity|].
  vm_compute. discriminate.
Qed.

(** ** The parameters pushed by the filter effect *)

Section PushedParams.

Import UseDataTable.

Lemma not_hasFilter_cons (f : ColumnFilter) (filters : ColumnFiltersState)
    (key : string) :
  ¬ hasFilter (f :: filters) key →
  filter_id f ≠ key ∧ ¬ hasFilter filters key.
Proof.
  intros Hno. split.
  - intros Hid. apply Hno. exists f. split; [apply list_elem_of_here | done].
  - intros (g & Hin & Hid). apply Hno. exists g.
    split; [by apply list_elem_of_further | done].
Qed.

(** The loop over the search filters leaves alone every key that is not
    the id of one of them. *)
Lemma assignSearchable_other (filters : ColumnFiltersState)
    (params : QueryState) (key : string) :
  ¬ hasFilter filters key →
  foldl assignSearchable params filters !! key = params !! key.
Proof.
  revert params. induction filters as [|f filters IH]; intros params Hno.
  - reflexivity.
  - apply not_hasFilter_cons in Hno as [Hid Hno]. cbn [foldl].
    rewrite IH by exact Hno. unfold assignSearchable.
    destruct (filter_value f); [|reflexivity..].
    by apply lookup_assign_ne.
Qed.

Lemma assignFilterable_other (filters : ColumnFiltersState)
    (params : QueryState) (key : string) :
  ¬ hasFilter filters key →
  foldl assignFilterable params filters !! key = params !! key.
Proof.
  revert params. induction filters as [|f filters IH]; intros params Hno.
  - reflexivity.
  - apply not_hasFilter_cons in Hno as [Hid Hno]. cbn [foldl].
    rewrite IH by exact Hno. unfold assignFilterable.
    destruct (filter_value f); [reflexivity| |reflexivity].
    by apply lookup_assign_ne.
Qed.

(** Neither loop ever creates or changes a property [__proto__]. *)
Lemma assignSearchable_proto (filters : ColumnFiltersState)
    (params : QueryState) :
  foldl assignSearchable params filters !! "__proto__"
  = params !! "__proto__".
Proof.
  revert params. induction filters as [|f filters IH]; intros params;
    [reflexivity|].
  cbn [foldl]. rewrite IH. unfold assignSearchable.
  destruct (filter_value f); [|reflexivity..]. apply lookup_assign_proto.
Qed.

Lemma assignFilterable_proto (filters : ColumnFiltersState)
    (params : QueryState) :
  foldl assignFilterable params filters !! "__proto__"
  = params !! "__proto__".
Proof.
  revert params. induction filters as [|f filters IH]; intros params;
    [reflexivity|].
  cbn [foldl]. rewrite IH. unfold assignFilterable.
  destruct (filter_value f); [reflexivity| |reflexivity].
  apply lookup_assign_proto.
Qed.

(** The loop over the faceted filters leaves the joined array under the id
    of a filter that is the only one with its id, [__proto__] apart. *)
Lemma assignFilterable_written (filters : ColumnFiltersState)
    (params : QueryState) (f : ColumnFilter) (items : list string) :
  filter_id f ≠ "__proto__" →
  filter_value f = FVArray items →
  (∀ g, g ∈ filters → filter_id g = filter_id f → g = f) →
  params !! filter_id f = Some (QStr (Js.join "." items)) ∨ f ∈ filters →
  foldl assignFilterable params filters !! filter_id f
  = Some (QStr (Js.join "." items)).
Proof.
  intros Hproto Hvalue. revert params.
  induction filters as [|g filters IH]; intros params Honly Hstart.
  - destruct Hstart as [Hp|Hin]; [exact Hp|]. by apply not_elem_of_nil in Hin.
  - cbn [foldl]. apply IH.
    + intros g' Hin. apply Honly. by apply list_elem_of_further.
    + destruct (decide (filter_id g = filter_id f)) as [Hid|Hid].
      * left. rewrite (Honly g (list_elem_of_here _ _) Hid).
        unfold assignFilterable. rewrite Hvalue.
        by apply lookup_assign_eq.
      * destruct Hstart as [Hp|Hin].
        -- left. rewrite <- Hp. unfold assignFilterable.
           destruct (filter_value g); [reflexivity| |reflexivity].
           by apply lookup_assign_ne.
        -- apply elem_of_cons in Hin as [->|Hin]; [done | by right].
Qed.

Variables searchable filterable : list DataTableFilterField.
Variables debounced faceted : ColumnFiltersState.

(** The loop over the keys of the search parameters sets the keys that
    meet its condition to null, [__proto__] apart, and no other key. *)
Lemma assignDeleted_lookup (keys : list string) (acc : QueryState * bool)
    (key : string) :
  key ≠ "__proto__" →
  (foldl (assignDeleted searchable filterable debounced faceted) acc keys).1
    !! key
  = if bool_decide (key ∈ keys)
       && isDeleted searchable filterable debounced faceted key
    then Some QNull else acc.1 !! key.
Proof.
  intros Hproto. revert acc. induction keys as [|k keys IH]; intros acc.
  - reflexivity.
  - cbn [foldl]. rewrite IH. unfold assignDeleted.
    destruct (decide (k = key)) as [->|Hne].
    + rewrite (bool_decide_eq_true_2 (key ∈ key :: keys))
        by apply list_elem_of_here.
      destruct (isDeleted _ _ _ _ key) eqn:Hdel.
      * rewrite andb_true_r, decide_False by exact Hproto. cbn [fst].
        rewrite lookup_insert_eq. by case_bool_decide.
      * rewrite !andb_false_r. reflexivity.
    + assert (bool_decide (key ∈ k :: keys) = bool_decide (key ∈ keys))
        as ->.
      { apply bool_decide_ext. rewrite elem_of_cons.
        split; [intros [->|Hin]; [by destruct Hne | exact Hin] | by right]. }
      destruct (bool_decide (key ∈ keys) && isDeleted _ _ _ _ key);
        [reflexivity|].
      destruct (isDeleted _ _ _ _ k); [|reflexivity].
      destruct (decide (k = "__proto__")); [destruct acc.2|]; cbn [fst];
        try reflexivity; by apply lookup_insert_ne.
Qed.

(** Whatever the key, the loop leaves it as it was or sets it to null, and
    sets it to null only if it is one of the keys and meets the
    condition. *)
Lemma assignDeleted_cases (keys : list string) (acc : QueryState * bool)
    (key : string) :
  (foldl (assignDeleted searchable filterable debounced faceted) acc keys).1
    !! key = acc.1 !! key
  ∨ ((foldl (assignDeleted searchable filterable debounced faceted) acc keys).1
       !! key = Some QNull
     ∧ key ∈ keys
     ∧ isDeleted searchable filterable debounced faceted key = true).
Proof.
  revert acc. induction keys as [|k keys IH]; intros acc; [by left|].
  cbn [foldl].
  destruct (IH (assignDeleted searchable filterable debounced faceted acc k))
    as [Hsame|(Hnull & Hin & Hdel)].
  - rewrite Hsame. unfold assignDeleted.
    destruct (isDeleted _ _ _ _ k) eqn:Hk; [|by left].
    destruct (decide (k = key)) as [->|Hne].
    + destruct (decide (key = "__proto__")); [destruct acc.2|]; cbn [fst];
        try (by left);
        right; rewrite lookup_insert_eq;
        (split; [reflexivity|]); (split; [apply list_elem_of_here | exact Hk]).
    + left.
      destruct (decide (k = "__proto__")); [destruct acc.2|]; cbn [fst];
        try reflexivity; by apply lookup_insert_ne.
  - right. split; [exact Hnull|]. split; [|exact Hdel].
    by apply list_elem_of_further.
Qed.

End PushedParams.

Section EffectFacts.

Import UseDataTable.

Variable fields : list DataTableFilterField.

Lemma elem_of_filtersOf (columns : list DataTableFilterField)
    (columnFilters : ColumnFiltersState) (f : ColumnFilter) :
  f ∈ filtersOf columns columnFilters
  ↔ (∃ column, column ∈ columns ∧ field_value column = filter_id f)
    ∧ f ∈ columnFilters.
Proof.
  unfold filtersOf. rewrite list_elem_of_filter, findColumn_is_Some. done.
Qed.

Lemma isDeleted_true (debounced faceted : ColumnFiltersState)
    (key : string) :
  isDeleted (searchableColumns fields) (filterableColumns fields)
    debounced faceted key = true
  ↔ (namesSearch fields key ∧ ¬ hasFilter debounced key)
    ∨ (namesFaceted fields key ∧ ¬ hasFilter faceted key).
Proof.
  unfold isDeleted.
  rewrite orb_true_iff, !andb_true_iff, !negb_true_iff.
  rewrite !someColumn_true, searchable_named, filterable_named.
  rewrite <- !not_true_iff_false, !someFilter_true. done.
Qed.

Lemma isDeleted_false (debounced faceted : ColumnFiltersState)
    (key : string) :
  (namesSearch fields key → hasFilter debounced key) →
  (namesFaceted fields key → hasFilter faceted key) →
  isDeleted (searchableColumns fields) (filterableColumns fields)
    debounced faceted key = false.
Proof.
  intros Hs Hf. apply not_true_iff_false.
  intros [[Hn Hno]|[Hn Hno]]%isDeleted_true; [apply Hno, Hs | apply Hno, Hf];
    exact Hn.
Qed.


(** A key the last loop passes over keeps what the first two loops left. *)
Lemma pushed_kept (sp : SearchParams)
    (debounced faceted : ColumnFiltersState) (key : string) :
  isDeleted (searchableColumns fields) (filterableColumns fields)
    debounced faceted key = false →
  newParamsObject fields sp debounced faceted !! key
  = foldl assignFilterable
      (foldl assignSearchable {[ "pageIndex" := QNum 0 ]} debounced)
      faceted !! key.
Proof.
  intros Hdel. unfold newParamsObject.
  destruct (assignDeleted_cases (searchableColumns fields)
              (filterableColumns fields) debounced faceted sp.*1
              (foldl assignFilterable
                 (foldl assignSearchable {[ "pageIndex" := QNum 0 ]}
                    debounced) faceted, false) key)
    as [Hsame|(_ & _ & Hyes)]; [exact Hsame | congruence].
Qed.

End EffectFacts.

(** ** Stale parameters *)




(** ** The query string of the advanced filter item *)

Section SearchParamsFacts.

Import AdvancedFilterItem.

Lemma getAll_delete (key : string) (sp : SearchParams) :
  getAll key (delete key sp) = [].
Proof.
  unfold getAll, delete. induction sp as [|[k v] sp IH]; [reflexivity|].
  destruct (decide (k = key)) as [->|Hne].
  - rewrite filter_cons_False by (intros Hn; by apply Hn). exact IH.
  - rewrite filter_cons_True by exact Hne.
    rewrite filter_cons_False by exact Hne. exact IH.
Qed.

Lemma getAll_set (key value : string) (sp : SearchParams) :
  getAll key (set key value sp) = [value].
Proof.
  induction sp as [|[k v] sp IH]; cbn [set].
  - unfold getAll. by rewrite filter_cons_True.
  - destruct (decide (k = key)) as [->|Hne].
    + unfold getAll. rewrite filter_cons_True by reflexivity.
      rewrite fmap_cons. f_equal. apply getAll_delete.
    + unfold getAll in *. rewrite filter_cons_False by exact Hne. exact IH.
Qed.

(** Pairs that a predicate blind to [key] selects survive [delete]. *)
Lemma filter_delete (P : string * string → Prop) `{∀ kv, Decision (P kv)}
    (key : string) (sp : SearchParams) :
  (∀ kv, P kv → kv.1 ≠ key) →
  filter P (delete key sp) = filter P sp.
Proof.
  intros Hblind. unfold delete. induction sp as [|kv sp IH]; [reflexivity|].
  destruct (decide (kv.1 = key)) as [Heq|Hne].
  - rewrite (filter_cons_False (λ kv, kv.1 ≠ key))
      by (intros Hn; by apply Hn).
    rewrite (filter_cons_False P); [exact IH|].
    intros HP. by apply (Hblind kv).
  - rewrite (filter_cons_True (λ kv, kv.1 ≠ key)) by exact Hne.
    rewrite !(filter_cons P), IH. reflexivity.
Qed.

(** ... and survive [set], in the same order. *)
Lemma filter_set (P : string * string → Prop) `{∀ kv, Decision (P kv)}
    (key value : string) (sp : SearchParams) :
  (∀ kv, P kv → kv.1 ≠ key) →
  filter P (set key value sp) = filter P sp.
Proof.
  intros Hblind. induction sp as [|[k v] sp IH]; cbn [set].
  - rewrite filter_cons_False; [reflexivity|].
    intros HP. by apply (Hblind (key, value)).
  - destruct (decide (k = key)) as [->|Hne].
    + rewrite !(filter_cons_False P).
      * by apply filter_delete.
      * intros HP. by apply (Hblind (key, v)).
      * intros HP. by apply (Hblind (key, value)).
    + rewrite !(filter_cons P), IH. reflexivity.
Qed.

Lemma delete_set (key value : string) (sp : SearchParams) :
  delete key (set key value sp) = delete key sp.
Proof. unfold delete. by apply filter_set. Qed.

Lemma delete_delete (key : string) (sp : SearchParams) :
  delete key (delete key sp) = delete key sp.
Proof. unfold delete at 1 3. by apply (filter_delete (λ kv, kv.1 ≠ key)). Qed.

(** [createQueryString] touches no pair whose key is not in [params]. *)
Lemma newSearchParams_others (numberToString : Z → string)
    (params : list (string * ParamValue)) (sp : SearchParams) :
  filter (λ kv, kv.1 ∉ params.*1) (newSearchParams numberToString sp params)
  = filter (λ kv, kv.1 ∉ params.*1) sp.
Proof.
  unfold newSearchParams.
  assert (Hgen : ∀ (keys : list string) sp,
            (∀ k, k ∈ params.*1 → k ∈ keys) →
            filter (λ kv, kv.1 ∉ keys)
                   (foldl (applyParam numberToString) sp params)
            = filter (λ kv, kv.1 ∉ keys) sp).
  { clear sp. induction params as [|[k v] params IH]; intros keys sp Hkeys.
    - reflexivity.
    - cbn [foldl]. rewrite IH.
      + assert (Hk : k ∈ keys) by apply Hkeys, list_elem_of_here.
        unfold applyParam. cbn [fst snd].
        destruct v; [apply filter_delete | apply filter_set..];
          intros kv Hout Heq; apply Hout; rewrite Heq; exact Hk.
      + intros k' Hin. apply Hkeys. by apply list_elem_of_further. }
  by apply Hgen.
Qed.

End SearchParamsFacts.

(** C7: when the debounced input is not empty the effect pushes a query
    string in which the parameter named by the selected option is the input,
    a dot and the filter variety; when it is empty the parameter is deleted;
    either way the pairs under every other key are carried over, in order.
    [createQueryString] deletes the key of a null entry, sets the key of any
    other entry to its string, and leaves every key outside [params] as it
    was. *)
Theorem input_effect_query (toString : SearchParams → string)
    (numberToString : Z → string) (pathname : string) (sp : SearchParams)
    (selected debounceValue filterVariety : string) :
  (debounceValue ≠ EmptyString →
   let sp' :=
     AdvancedFilterItem.set selected
       (debounceValue +:+ "." +:+ filterVariety) sp in
   AdvancedFilterItem.inputEffect toString numberToString pathname sp
     selected debounceValue filterVariety
   = [AdvancedFilterItem.RouterPush (pathname +:+ "?" +:+ toString sp') false]
   ∧ AdvancedFilterItem.getAll selected sp'
     = [debounceValue +:+ "." +:+ filterVariety]
   ∧ AdvancedFilterItem.delete selected sp'
     = AdvancedFilterItem.delete selected sp)
  ∧ (debounceValue = EmptyString →
     let sp' := AdvancedFilterItem.delete selected sp in
     AdvancedFilterItem.inputEffect toString numberToString pathname sp
       selected debounceValue filterVariety
     = [AdvancedFilterItem.RouterPush
          (pathname +:+ "?" +:+ toString sp') false]
     ∧ AdvancedFilterItem.getAll selected sp' = []
     ∧ AdvancedFilterItem.delete selected sp'
       = AdvancedFilterItem.delete selected sp)
  ∧ (∀ params : list (string * AdvancedFilterItem.ParamValue),
       AdvancedFilterItem.createQueryString toString numberToString sp params
       = toString (AdvancedFilterItem.newSearchParams numberToString sp params)
       ∧ filter (λ kv, kv.1 ∉ params.*1)
           (AdvancedFilterItem.newSearchParams numberToString sp params)
         = filter (λ kv, kv.1 ∉ params.*1) sp)
  ∧ (∀ key value,
       AdvancedFilterItem.newSearchParams numberToString sp [(key, value)]
       = match value with
         | AdvancedFilterItem.PNull => AdvancedFilterItem.delete key sp
         | _ =>
             AdvancedFilterItem.set key
               (AdvancedFilterItem.String_ numberToString value) sp
         end).
Proof.
  split; [|split; [|split]].
  - intros Hvalue sp'. split; [|split].
    + unfold AdvancedFilterItem.inputEffect, AdvancedFilterItem.filterParam.
      rewrite length_zero_truthy, !length_pos_truthy.
      apply truthy_true in Hvalue. rewrite Hvalue. reflexivity.
    + apply getAll_set.
    + apply delete_set.
  - intros -> sp'. split; [reflexivity|]. split.
    + apply getAll_delete.
    + apply delete_delete.
  - intros params. split; [reflexivity|]. apply newSearchParams_others.
  - intros key []; reflexivity.
Qed.

Lemma input_effect_query_witness :
  let sp := [("page", "2"); ("title", "old.contains"); ("title", "x")] in
  AdvancedFilterItem.inputEffect (λ _, "q") (λ _, "0") "/tasks" sp
    "title" "foo" "contains"
  = [AdvancedFilterItem.RouterPush "/tasks?q" false]
  ∧ AdvancedFilterItem.set "title" "foo.contains" sp
    = [("page", "2"); ("title", "foo.contains")]
  ∧ AdvancedFilterItem.getAll "title"
      (AdvancedFilterItem.set "title" "foo.contains" sp)
    = ["foo.contains"]
  ∧ AdvancedFilterItem.inputEffect (λ _, "q") (λ _, "0") "/tasks" sp
      "title" "" "contains"
    = [AdvancedFilterItem.RouterPush "/tasks?q" false]
  ∧ AdvancedFilterItem.getAll "title" (AdvancedFilterItem.delete "title" sp)
    = [].
Proof.
  intros sp.
  destruct (input_effect_query (λ _, "q") (λ _, "0") "/tasks" sp
              "title" "foo" "contains") as (Hset & _).
  destruct (input_effect_query (λ _, "q") (λ _, "0") "/tasks" sp
              "title" "" "contains") as (_ & Hdel & _).
  destruct Hset as (Hpush & Hget & _); [discriminate|].
  destruct Hdel as (Hpush' & Hget' & _); [reflexivity|].
  split; [exact Hpush|]. split; [reflexivity|]. split; [exact Hget|].
  split; [exact Hpush' | exact Hget'].
Defined.

(** ** The filter effect over the life of the hook *)

Section HookFacts.

Import UseDataTable.

Variable J : Json.
Variable p : UseDataTableProps.

Lemma effectCalls_advanced (h : Hook) :
  enableAdvancedFilter_of p = true → effectCalls J p h = [].
Proof. intros Hadv. unfold effectCalls. rewrite Hadv. reflexivity. Qed.

Lemma effectCalls_first (h : Hook) :
  enableAdvancedFilter_of p = false → mounted h = false →
  effectCalls J p h = [SetMounted true].
Proof.
  intros Hadv Hm. unfold effectCalls. rewrite Hadv, Hm. reflexivity.
Qed.

Lemma effectCalls_mounted (h : Hook) :
  enableAdvancedFilter_of p = false → mounted h = true →
  effectCalls J p h
  = [ SetQueryState
        (pushedQueryState (filterFields_of p) (currentQueryState h)
           (currentSearchParams h) (debouncedFilters J h)
           (filterableFilters (filterFields_of p) h));
      TableSetPageIndex 0 ].
Proof.
  intros Hadv Hm. unfold effectCalls. rewrite Hadv, Hm. reflexivity.
Qed.

Lemma hookStep_calls (h : Hook) (e : HookEvent) :
  (hookStep J p h e).2
  = if decide (depsOf J (filterFields_of p) (receive J p h e) = lastDeps h)
    then [] else effectCalls J p (receive J p h e).
Proof.
  unfold hookStep. cbn [lastDeps receive]. by case_decide.
Qed.

Lemma hookStep_mounted (h : Hook) (e : HookEvent) :
  enableAdvancedFilter_of p = false → mounted h = true →
  mounted (hookStep J p h e).1 = true.
Proof.
  intros Hadv Hm. unfold hookStep. case_decide; [exact Hm|].
  cbn [fst mounted]. rewrite effectCalls_mounted; [|exact Hadv|exact Hm].
  exact Hm.
Qed.

Lemma hookStep_lastDeps (h : Hook) (e : HookEvent) :
  lastDeps (hookStep J p h e).1
  = depsOf J (filterFields_of p) (hookStep J p h e).1.
Proof.
  unfold hookStep. case_decide as Hdeps; cbn [fst]; [by rewrite Hdeps|].
  reflexivity.
Qed.

Lemma hookRun_snoc (qs : QueryState) (sp : SearchParams)
    (events : list HookEvent) (e : HookEvent) :
  hookRun J p qs sp (events ++ [e])
  = ((hookStep J p (hookRun J p qs sp events).1 e).1,
     (hookRun J p qs sp events).2
       ++ (hookStep J p (hookRun J p qs sp events).1 e).2).
Proof. unfold hookRun. rewrite foldl_snoc. reflexivity. Qed.

Lemma hookRun_mounted (qs : QueryState) (sp : SearchParams)
    (events : list HookEvent) :
  enableAdvancedFilter_of p = false →
  mounted (hookRun J p qs sp events).1 = true.
Proof.
  intros Hadv. induction events as [|e events IH] using rev_ind.
  - unfold hookRun, hookMount. cbn [foldl fst mounted].
    rewrite effectCalls_first; [reflexivity | exact Hadv | reflexivity].
  - rewrite hookRun_snoc. cbn [fst]. by apply hookStep_mounted.
Qed.

Lemma hookRun_lastDeps (qs : QueryState) (sp : SearchParams)
    (events : list HookEvent) :
  lastDeps (hookRun J p qs sp events).1
  = depsOf J (filterFields_of p) (hookRun J p qs sp events).1.
Proof.
  destruct events as [|e events _] using rev_ind.
  - reflexivity.
  - rewrite hookRun_snoc. cbn [fst]. apply hookStep_lastDeps.
Qed.

Lemma hookRun_advanced (qs : QueryState) (sp : SearchParams)
    (events : list HookEvent) :
  enableAdvancedFilter_of p = true →
  (hookRun J p qs sp events).2 = [].
Proof.
  intros Hadv. induction events as [|e events IH] using rev_ind.
  - unfold hookRun, hookMount. cbn [foldl snd].
    by apply effectCalls_advanced.
  - rewrite hookRun_snoc. cbn [snd]. rewrite IH, hookStep_calls.
    case_decide; [reflexivity|]. by apply effectCalls_advanced.
Qed.

End HookFacts.

(** ** Page reset on a filter change *)

(** C8, amended: after mount, with advanced filtering off, every render in
    which the debounced search filters or the faceted filters differ from
    those of the last run makes the effect push a query state and call
    [table.setPageIndex(0)]; the pushed state holds page index 0 provided
    that [pageIndex] is neither the name of a filter field nor the id of a
    debounced search filter. *)
Theorem filter_change_resets_page (J : UseDataTable.Json)
    (p : UseDataTableProps) (qs : QueryState) (sp : SearchParams)
    (events : list UseDataTable.HookEvent) (e : UseDataTable.HookEvent) :
  let fields := UseDataTable.filterFields_of p in
  let h := (UseDataTable.hookRun J p qs sp events).1 in
  let h' := UseDataTable.receive J p h e in
  let pushed :=
    UseDataTable.pushedQueryState fields
      (UseDataTable.currentQueryState h')
      (UseDataTable.currentSearchParams h')
      (UseDataTable.debouncedFilters J h')
      (UseDataTable.filterableFilters fields h') in
  UseDataTable.enableAdvancedFilter_of p = false →
  UseDataTable.depsOf J fields h' ≠ UseDataTable.depsOf J fields h →
  (UseDataTable.hookStep J p h e).2
  = [UseDataTable.SetQueryState pushed; UseDataTable.TableSetPageIndex 0]
  ∧ (¬ UseDataTable.namesSearch fields "pageIndex" →
     ¬ UseDataTable.namesFaceted fields "pageIndex" →
     ¬ UseDataTable.hasFilter (UseDataTable.debouncedFilters J h')
         "pageIndex" →
     pushed !! "pageIndex" = Some (QNum 0)).
Proof.
  cbv zeta. intros Hadv Hdeps. split.
  - rewrite hookStep_calls, hookRun_lastDeps.
    rewrite decide_False by exact Hdeps.
    apply effectCalls_mounted; [exact Hadv|].
    cbn [UseDataTable.receive UseDataTable.mounted].
    by apply hookRun_mounted.
  - intros Hsearch Hfaceted Hdebounced.
    unfold UseDataTable.pushedQueryState.
    apply lookup_union_Some_l. rewrite pushed_kept.
    + rewrite assignFilterable_other, assignSearchable_other;
        [reflexivity | exact Hdebounced |].
      intros (f & Hin & Hid). apply elem_of_filtersOf in Hin as [Hcol _].
      apply Hfaceted, filterable_named. rewrite <- Hid. exact Hcol.
    + apply isDeleted_false; intros; contradiction.
Qed.

Lemma filter_change_resets_page_witness :
  let J :=
    {| UseDataTable.stringify :=
         λ filters, if decide (filters = []) then "[]" else "[facets]";
       UseDataTable.parse := λ _, [] |} in
  let p :=
    {| defaultPageSize := None; defaultSort := None;
       enableAdvancedFilter := None;
       filterFields :=
         Some [ mkFilterField "Status" "status" None
                  (Some [mkFieldOption "Todo" "todo"]) ];
       pageCount := None |} in
  let qs : QueryState := <["pageIndex" := QNum 4]> ∅ in
  let e :=
    UseDataTable.ColumnFiltersChanged
      [mkColumnFilter "status" (FVArray ["todo"])] in
  (UseDataTable.hookStep J p (UseDataTable.hookRun J p qs [] []).1 e).2
  = [ UseDataTable.SetQueryState
        (<["status" := QStr "todo"]> (<["pageIndex" := QNum 0]> ∅));
      UseDataTable.TableSetPageIndex 0 ]
  ∧ (<["status" := QStr "todo"]> (<["pageIndex" := QNum 0]> ∅) : QueryState)
      !! "pageIndex" = Some (QNum 0).
Proof.
  intros J p qs e.
  destruct (filter_change_resets_page J p qs [] [] e) as [Hcalls Hpage].
  - reflexivity.
  - vm_compute. discriminate.
  - split; [rewrite Hcalls; vm_compute; reflexivity|].
    etransitivity; [|apply Hpage].
    + vm_compute. reflexivity.
    + intros (field & Hin & _ & Ho).
      apply list_elem_of_singleton in Hin as ->. discriminate.
    + intros (field & Hin & Hname & _).
      apply list_elem_of_singleton in Hin as ->. discriminate.
    + intros (f & Hin & _). change (f ∈ []) in Hin.
      by apply not_elem_of_nil in Hin.
Defined.

(** C8 as stated fails when a search column is itself called [pageIndex]:
    its text is assigned over the initial 0 of the pushed parameters. *)
Lemma page_reset_overwritten_by_column :
  let fields := [mkFilterField "Page" "pageIndex" None None] in
  let debounced := [mkColumnFilter "pageIndex" (FVString "7")] in
  let qs : QueryState := <["pageIndex" := QNum 4]> ∅ in
  UseDataTable.filterSyncEffect false true fields qs [] debounced []
  = [ UseDataTable.SetQueryState (<["pageIndex" := QStr "7"]> ∅);
      UseDataTable.TableSetPageIndex 0 ]
  ∧ UseDataTable.pushedQueryState fields qs [] debounced [] !! "pageIndex"
    ≠ Some (QNum 0).
Proof.
  intros fields debounced qs. split; [vm_compute; reflexivity|].
  vm_compute. discriminate.
Qed.

(** ** Advanced filtering *)

(** C9: with [enableAdvancedFilter] the body of the filter effect makes no
    call, whatever it closes over; over any sequence of filter changes, URL
    changes and timer events the hook therefore never calls
    [setQueryState] or [table.setPageIndex] from this effect. *)
Theorem advanced_filter_opts_out (J : UseDataTable.Json)
    (p : UseDataTableProps) (qs : QueryState) (sp : SearchParams)
    (events : list UseDataTable.HookEvent) :
  enableAdvancedFilter p = Some true →
  (∀ mounted fields qs' sp' debounced faceted,
     UseDataTable.filterSyncEffect true mounted fields qs' sp'
       debounced faceted = [])
  ∧ (UseDataTable.hookRun J p qs sp events).2 = [].
Proof.
  intros Hadv. split; [reflexivity|].
  apply hookRun_advanced. unfold UseDataTable.enableAdvancedFilter_of.
  by rewrite Hadv.
Qed.

Lemma advanced_filter_opts_out_witness :
  let J :=
    {| UseDataTable.stringify :=
         λ filters, if decide (filters = []) then "[]" else "[filters]";
       UseDataTable.parse := λ _, [] |} in
  let p :=
    {| defaultPageSize := None; defaultSort := None;
       enableAdvancedFilter := Some true;
       filterFields :=
         Some [ mkFilterField "Status" "status" None
                  (Some [mkFieldOption "Todo" "todo"]) ];
       pageCount := None |} in
  (UseDataTable.hookRun J p ∅ [("status", "done")]
     [ UseDataTable.ColumnFiltersChanged
         [mkColumnFilter "status" (FVArray ["todo"])];
       UseDataTable.Tick;
       UseDataTable.ColumnFiltersChanged [] ]).2 = [].
Proof.
  intros J p.
  apply (advanced_filter_opts_out J p ∅ [("status", "done")]).
  reflexivity.
Defined.

(** ** The first run of the filter effect *)

(** C10, amended: the first run of the filter effect makes no query-state
    update and no page reset; with advanced filtering off it only sets the
    mounted flag to true, so that the hook is mounted after its first
    render. *)
Theorem first_run_only_mounts (J : UseDataTable.Json)
    (p : UseDataTableProps) (qs : QueryState) (sp : SearchParams) :
  (∀ advanced fields qs' sp' debounced faceted,
     Forall (λ call, call = UseDataTable.SetMounted true)
       (UseDataTable.filterSyncEffect advanced false fields qs' sp'
          debounced faceted))
  ∧ (∀ fields qs' sp' debounced faceted,
       UseDataTable.filterSyncEffect false false fields qs' sp'
         debounced faceted = [UseDataTable.SetMounted true])
  ∧ (UseDataTable.enableAdvancedFilter_of p = false →
     (UseDataTable.hookMount J p qs sp).2 = [UseDataTable.SetMounted true]
     ∧ UseDataTable.mounted (UseDataTable.hookMount J p qs sp).1 = true).
Proof.
  split; [|split].
  - intros [] fields qs' sp' debounced faceted; simpl.
    + apply Forall_nil_2.
    + by apply Forall_singleton.
  - reflexivity.
  - intros Hadv. unfold UseDataTable.hookMount.
    cbn [fst snd UseDataTable.mounted].
    rewrite effectCalls_first; [split; reflexivity | exact Hadv | reflexivity].
Qed.

Lemma first_run_only_mounts_witness :
  let J :=
    {| UseDataTable.stringify :=
         λ filters, if decide (filters = []) then "[]" else "[filters]";
       UseDataTable.parse := λ _, [] |} in
  let p :=
    {| defaultPageSize := None; defaultSort := None;
       enableAdvancedFilter := None;
       filterFields := Some [mkFilterField "Title" "title" None None];
       pageCount := None |} in
  let qs : QueryState :=
    <["title" := QStr "foo"]> (<["pageIndex" := QNum 2]> ∅) in
  (UseDataTable.hookMount J p qs [("title", "foo"); ("pageIndex", "2")]).2
  = [UseDataTable.SetMounted true]
  ∧ UseDataTable.mounted
      (UseDataTable.hookMount J p qs
         [("title", "foo"); ("pageIndex", "2")]).1 = true.
Proof.
  intros J p qs.
  destruct (first_run_only_mounts J p qs
              [("title", "foo"); ("pageIndex", "2")]) as (_ & _ & Hmount).
  apply Hmount. reflexivity.
Defined.

(** C10 as stated fails with advanced filtering on: the first run returns
    before it reaches the mounted flag, which stays false. *)
Lemma first_run_with_advanced_filter :
  let J :=
    {| UseDataTable.stringify :=
         λ filters, if decide (filters = []) then "[]" else "[filters]";
       UseDataTable.parse := λ _, [] |} in
  let p :=
    {| defaultPageSize := None; defaultSort := None;
       enableAdvancedFilter := Some true;
       filterFields := Some [mkFilterField "Title" "title" None None];
       pageCount := None |} in
  UseDataTable.filterSyncEffect true false
    (UseDataTable.filterFields_of p) ∅ [] [] [] = []
  ∧ (UseDataTable.hookMount J p ∅ []).2 ≠ [UseDataTable.SetMounted true]
  ∧ UseDataTable.mounted (UseDataTable.hookMount J p ∅ []).1 = false.
Proof.
  intros J p. split; [reflexivity|]. split; [|reflexivity].
  vm_compute. discriminate.
Qed.

(** ** Debouncing *)

Section DebounceFacts.

Import Debounce.

Context {T : Type} `{EqDecision T}.
Variable delay : nat.

Implicit Types (st : State T) (events window : list (Event T)) (e : Event T).

Lemma run_snoc st events e :
  run delay st (events ++ [e]) = step delay (run delay st events) e.
Proof. unfold run. apply foldl_snoc. Qed.

Lemma ticks_snoc events e :
  ticks (events ++ [e]) = (ticks events + (if decide (e = Tick) then 1 else 0))%nat.
Proof.
  unfold ticks. rewrite filter_app, length_app. f_equal.
  destruct (decide (e = Tick)).
  - by rewrite filter_cons_True.
  - by rewrite filter_cons_False.
Qed.

Lemma quiet_snoc (value : T) window e :
  quiet value window → (∀ other, e = Render other → other = value) →
  quiet value (window ++ [e]).
Proof.
  intros Hq He. apply Forall_app. split; [exact Hq|].
  by apply Forall_singleton.
Qed.

Lemma settled_snoc (value : T) events e :
  settled delay value events → settled delay value (events ++ [e]).
Proof.
  intros (before & window & after & -> & Hq & Hd).
  exists before, window, (after ++ [e]). split; [|done].
  by rewrite <- !app_assoc, <- !app_comm_cons, <- app_assoc.
Qed.

Lemma run_invariant_mount (first : T) :
  run_invariant delay first [] (mount first).
Proof.
  split; [left; split; [reflexivity | apply Forall_nil_2] | by left].
Qed.

Lemma run_invariant_step (first : T) events st e :
  run_invariant delay first events st →
  run_invariant delay first (events ++ [e]) (step delay st e).
Proof.
  intros [Hlatest Hdeb]. destruct e as [value| |].
  - (* a render *)
    cbn [step]. destruct (decide (value = latest st)) as [->|Hnew].
    + split; [|destruct Hdeb; [by left | right; by apply settled_snoc]].
      destruct Hlatest as [[Hl Hq]|(before & window & -> & Hq & Ht)].
      * left. split; [exact Hl|]. apply quiet_snoc; [exact Hq|].
        intros other [= <-]. exact Hl.
      * right. exists before, (window ++ [Render (latest st)]).
        split; [by rewrite <- app_assoc|]. split.
        -- apply quiet_snoc; [exact Hq|]. by intros other [= <-].
        -- intros elapsed Hel. rewrite ticks_snoc.
           specialize (Ht elapsed Hel). lia.
    + split; [|destruct Hdeb; [by left | right; by apply settled_snoc]].
      right. exists events, []. cbn [latest timer].
      split; [reflexivity|]. split; [apply Forall_nil_2|].
      intros elapsed [= <-]. unfold ticks. simpl. lia.
  - (* a millisecond *)
    cbn [step]. split; [|destruct Hdeb; [by left | right; by apply settled_snoc]].
    cbn [latest timer].
    destruct Hlatest as [[Hl Hq]|(before & window & -> & Hq & Ht)].
    + left. split; [exact Hl|]. by apply quiet_snoc.
    + right. exists before, (window ++ [Tick]).
      split; [by rewrite <- app_assoc|]. split; [by apply quiet_snoc|].
      intros elapsed Hel. rewrite ticks_snoc, decide_True by reflexivity.
      destruct (timer st) as [n|]; [|discriminate].
      injection Hel as <-. specialize (Ht n eq_refl). lia.
  - (* the timer callback *)
    cbn [step]. destruct (timer st) as [n|] eqn:Htimer.
    + destruct (decide (delay ≤ n)%nat) as [Hdue|Hearly].
      * cbn [latest debounced timer]. split.
        -- destruct Hlatest as [[Hl Hq]|(before & window & -> & Hq & Ht)].
           ++ left. split; [exact Hl|]. by apply quiet_snoc.
           ++ right. exists before, (window ++ [Fire]).
              split; [by rewrite <- app_assoc|]. split; [by apply quiet_snoc|].
              intros elapsed [=].
        -- destruct Hlatest as [[Hl Hq]|(before & window & -> & Hq & Ht)].
           ++ by left.
           ++ right. exists before, window, [].
              split; [by rewrite <- app_assoc|]. split; [exact Hq|].
              specialize (Ht n eq_refl). lia.
      * split; [|destruct Hdeb; [by left | right; by apply settled_snoc]].
        destruct Hlatest as [[Hl Hq]|(before & window & -> & Hq & Ht)].
        -- left. split; [exact Hl|]. by apply quiet_snoc.
        -- right. exists before, (window ++ [Fire]).
           split; [by rewrite <- app_assoc|]. split; [by apply quiet_snoc|].
           intros elapsed Hel. rewrite ticks_snoc, decide_False by discriminate.
           rewrite Htimer in Hel. specialize (Ht elapsed Hel). lia.
    + split; [|destruct Hdeb; [by left | right; by apply settled_snoc]].
      destruct Hlatest as [[Hl Hq]|(before & window & -> & Hq & Ht)].
      * left. split; [exact Hl|]. by apply quiet_snoc.
      * right. exists before, (window ++ [Fire]).
        split; [by rewrite <- app_assoc|]. split; [by apply quiet_snoc|].
        intros elapsed Hel. rewrite Htimer in Hel. discriminate.
Qed.

(** Only the timer callback changes the value the hook returns. *)
Lemma step_keeps_debounced st e :
  e ≠ Fire → debounced (step delay st e) = debounced st.
Proof.
  intros Hfire. destruct e as [value| |]; cbn [step].
  - by case_decide.
  - reflexivity.
  - by destruct Hfire.
Qed.

(** The value the hook returns is the one of its first render or one that
    has settled. *)
Lemma debounced_settled (first : T) events :
  debounced (run delay (mount first) events) = first
  ∨ settled delay (debounced (run delay (mount first) events)) events.
Proof.
  enough (run_invariant delay first events (run delay (mount first) events))
    as [_ Hdeb] by exact Hdeb.
  induction events as [|e events IH] using rev_ind.
  - apply run_invariant_mount.
  - rewrite run_snoc. by apply run_invariant_step.
Qed.

End DebounceFacts.

(** The timer of the model does run out: a value typed last is published
    by a callback 500 ms later, and not by one 499 ms later. *)
Example debounce_publishes_when_due :
  Debounce.debounced
    (Debounce.run 500 (Debounce.mount "")
       (Debounce.Render "a" :: Debounce.Render "ab"
          :: replicate 500 Debounce.Tick ++ [Debounce.Fire])) = "ab"
  ∧ Debounce.debounced
      (Debounce.run 500 (Debounce.mount "")
         (Debounce.Render "a" :: Debounce.Render "ab"
            :: replicate 499 Debounce.Tick ++ [Debounce.Fire])) = "".
Proof. split; vm_compute; reflexivity. Qed.

(** ** Debounced URL updates *)

Section HookDebounce.

Import UseDataTable.

Variable J : Json.
Variable p : UseDataTableProps.

Lemma hookStep_debounce (h : Hook) (e : HookEvent) :
  debounce (hookStep J p h e).1 = debounce (receive J p h e).
Proof. unfold hookStep. by case_decide. Qed.

(** The debounce of the hook is the debounce of its timeline. *)
Lemma hookRun_debounce (qs : QueryState) (sp : SearchParams)
    (events : list HookEvent) :
  debounce (hookRun J p qs sp events).1
  = Debounce.run debounceDelay
      (Debounce.mount
         (searchableJson J (filterFields_of p)
            (initialColumnFilters (filterFields_of p) qs)))
      (flat_map (timeline J (filterFields_of p)) events).
Proof.
  induction events as [|e events IH] using rev_ind.
  - reflexivity.
  - rewrite hookRun_snoc. cbn [fst]. rewrite hookStep_debounce.
    cbn [receive debounce]. rewrite IH, flat_map_app. cbn [flat_map].
    rewrite app_nil_r. unfold Debounce.run. by rewrite foldl_app.
Qed.

Lemma receive_debounce (qs : QueryState) (sp : SearchParams)
    (events : list HookEvent) (e : HookEvent) :
  debounce (receive J p (hookRun J p qs sp events).1 e)
  = Debounce.run debounceDelay
      (Debounce.mount
         (searchableJson J (filterFields_of p)
            (initialColumnFilters (filterFields_of p) qs)))
      (flat_map (timeline J (filterFields_of p)) (events ++ [e])).
Proof.
  rewrite <- (hookRun_debounce qs sp), hookRun_snoc. cbn [fst].
  by rewrite hookStep_debounce.
Qed.

(** An event other than the timer callback that leaves the faceted
    filters as they were leaves both dependencies of the effect as they
    were. *)
Lemma receive_deps (h : Hook) (e : HookEvent) :
  e ≠ Fire →
  filterableFilters (filterFields_of p) (receive J p h e)
  = filterableFilters (filterFields_of p) h →
  depsOf J (filterFields_of p) (receive J p h e)
  = depsOf J (filterFields_of p) h.
Proof.
  intros Hfire Hfaceted. unfold depsOf, debouncedFilters.
  rewrite Hfaceted. do 3 f_equal.
  destruct e as [filters|qs' sp'| |]; cbn [receive debounce timeline foldl];
    first [ reflexivity
          | by rewrite step_keeps_debounced
          | by destruct Hfire ].
Qed.

End HookDebounce.

Section ItemDebounce.

Import AdvancedFilterItem.

Variable E : Env.

Lemma itemRun_snoc (sp : SearchParams) (events : list ItemEvent)
    (e : ItemEvent) :
  itemRun E sp (events ++ [e])
  = ((itemStep E (itemRun E sp events).1 e).1,
     (itemRun E sp events).2 ++ (itemStep E (itemRun E sp events).1 e).2).
Proof. unfold itemRun. rewrite foldl_snoc. reflexivity. Qed.

Lemma itemStep_debounce (it : Item) (e : ItemEvent) :
  debounce (itemStep E it e).1 = debounce (receive it e).
Proof. unfold itemStep. by case_decide. Qed.

(** The debounce of the component is the debounce of its timeline. *)
Lemma itemRun_debounce (sp : SearchParams) (events : list ItemEvent) :
  debounce (itemRun E sp events).1
  = Debounce.run debounceDelay (Debounce.mount EmptyString)
      (flat_map timeline events).
Proof.
  induction events as [|e events IH] using rev_ind.
  - reflexivity.
  - rewrite itemRun_snoc. cbn [fst]. rewrite itemStep_debounce.
    cbn [receive debounce]. rewrite IH, flat_map_app. cbn [flat_map].
    rewrite app_nil_r. unfold Debounce.run. by rewrite foldl_app.
Qed.

Lemma item_receive_debounce (sp : SearchParams) (events : list ItemEvent)
    (e : ItemEvent) :
  debounce (receive (itemRun E sp events).1 e)
  = Debounce.run debounceDelay (Debounce.mount EmptyString)
      (flat_map timeline (events ++ [e])).
Proof.
  rewrite <- (itemRun_debounce sp), itemRun_snoc. cbn [fst].
  by rewrite itemStep_debounce.
Qed.

(** The effect last ran with the dependencies of the state reached. *)
Lemma itemStep_lastDeps (it : Item) (e : ItemEvent) :
  lastDeps (itemStep E it e).1 = depsOf (itemStep E it e).1.
Proof.
  unfold itemStep. case_decide as Hdeps; cbn [fst]; [by rewrite Hdeps|].
  reflexivity.
Qed.

Lemma itemRun_lastDeps (sp : SearchParams) (events : list ItemEvent) :
  lastDeps (itemRun E sp events).1 = depsOf (itemRun E sp events).1.
Proof.
  destruct events as [|e events _] using rev_ind.
  - reflexivity.
  - rewrite itemRun_snoc. cbn [fst]. apply itemStep_lastDeps.
Qed.

(** Typing, a change of the URL and the passing of time leave both
    dependencies of the effect as they were. *)
Lemma item_receive_deps (it : Item) (e : ItemEvent) :
  (∀ variety, e ≠ VarietySelected variety) → e ≠ Fire →
  depsOf (receive it e) = depsOf it.
Proof.
  intros Hvariety Hfire. unfold depsOf.
  destruct e as [text|variety|sp| |]; cbn [receive debounce filterVariety
    timeline foldl];
    first [ reflexivity
          | by rewrite step_keeps_debounced
          | by destruct (Hvariety variety)
          | by destruct Hfire ].
Qed.

(** What the effect pushes: the parameter set to the debounced text and
    the variety, or deleted when the debounced text is empty. *)
Lemma inputEffect_push (sp : SearchParams)
    (debounceValue filterVariety : string) :
  (debounceValue ≠ EmptyString
   ∧ inputEffect (toString E) (numberToString E) (pathname E) sp
       (selected E) debounceValue filterVariety
     = [ RouterPush
           (pathname E +:+ "?" +:+
            toString E
              (set (selected E) (debounceValue +:+ "." +:+ filterVariety) sp))
           false ])
  ∨ (debounceValue = EmptyString
     ∧ inputEffect (toString E) (numberToString E) (pathname E) sp
         (selected E) debounceValue filterVariety
       = [ RouterPush
             (pathname E +:+ "?" +:+ toString E (delete (selected E) sp))
             false ]).
Proof.
  unfold inputEffect, filterParam.
  rewrite length_zero_truthy, length_pos_truthy.
  destruct (Js.truthy debounceValue) eqn:Htext.
  - left. split; [by apply truthy_true | reflexivity].
  - right. split; [by apply truthy_false | reflexivity].
Qed.

End ItemDebounce.

(** A run of the component: three keystrokes within the window, then
    500 ms of silence and the timer. The only calls are the one of the first
    render, which deletes the parameter, and one that carries the whole
    text. With 499 ms of silence the second call is not made. *)
Example typing_then_pause :
  let E :=
    {| AdvancedFilterItem.toString :=
         λ sp, Js.join "&" (map (λ kv, kv.1 +:+ "=" +:+ kv.2) sp);
       AdvancedFilterItem.numberToString := λ _, "0";
       AdvancedFilterItem.pathname := "/tasks";
       AdvancedFilterItem.selected := "title";
       AdvancedFilterItem.hasItems := false |} in
  let keys :=
    [ AdvancedFilterItem.Typed "f"; AdvancedFilterItem.Tick;
      AdvancedFilterItem.Typed "fo"; AdvancedFilterItem.Tick;
      AdvancedFilterItem.Fire; AdvancedFilterItem.Typed "foo" ] in
  (AdvancedFilterItem.itemRun E [("page", "2")]
     (keys ++ replicate 500 AdvancedFilterItem.Tick
           ++ [AdvancedFilterItem.Fire])).2
  = [ AdvancedFilterItem.RouterPush "/tasks?page=2" false;
      AdvancedFilterItem.RouterPush "/tasks?page=2&title=foo.contains" false ]
  ∧ (AdvancedFilterItem.itemRun E [("page", "2")]
       (keys ++ replicate 499 AdvancedFilterItem.Tick
             ++ [AdvancedFilterItem.Fire])).2
    = [ AdvancedFilterItem.RouterPush "/tasks?page=2" false ].
Proof. split; vm_compute; reflexivity. Qed.

(** A run of the hook: a text typed into the search box of [title] reaches
    the query state once 500 ms have passed and the timer has run, and not
    after 499 ms. The two strings stand for the JSON of the two filter
    lists that occur. *)
Example search_then_pause :
  let typed := [mkColumnFilter "title" (FVString "foo")] in
  let J :=
    {| UseDataTable.stringify :=
         λ filters, if decide (filters = typed) then "[title:foo]" else "[]";
       UseDataTable.parse :=
         λ json, if decide (json = "[title:foo]") then typed else [] |} in
  let p :=
    {| defaultPageSize := None; defaultSort := None;
       enableAdvancedFilter := None;
       filterFields := Some [mkFilterField "Title" "title" None None];
       pageCount := None |} in
  let qs : QueryState := <["pageIndex" := QNum 3]> ∅ in
  (UseDataTable.hookRun J p qs [("pageIndex", "3")]
     (UseDataTable.ColumnFiltersChanged typed
        :: replicate 500 UseDataTable.Tick ++ [UseDataTable.Fire])).2
  = [ UseDataTable.SetMounted true;
      UseDataTable.SetQueryState
        (<["title" := QStr "foo"]> (<["pageIndex" := QNum 0]> ∅));
      UseDataTable.TableSetPageIndex 0 ]
  ∧ (UseDataTable.hookRun J p qs [("pageIndex", "3")]
       (UseDataTable.ColumnFiltersChanged typed
          :: replicate 499 UseDataTable.Tick ++ [UseDataTable.Fire])).2
    = [ UseDataTable.SetMounted true ].
Proof. split; vm_compute; reflexivity. Qed.

(** * Further properties of the code *)

(** ** From the URL to the query state *)

Section QueryStateFacts.

Import UseDataTable.

Variable parseInt : string → option Js.Number.
Variable p : UseDataTableProps.
Variable sp : SearchParams.

(** The loop of lines 119-121 maps every filter field to the string
    parser, the field [__proto__] apart, and leaves the other keys of the
    map alone. *)
Lemma fields_keyMap_lookup (fields : list DataTableFilterField)
    (km : gmap string Nuqs.Parser) (key : string) :
  key ≠ "__proto__" →
  foldl (λ km f, Js.assign (field_value f) Nuqs.parseAsString km) km fields
    !! key
  = if someColumn key fields then Some Nuqs.parseAsString else km !! key.
Proof.
  intros Hproto. revert km.
  induction fields as [|f fields IH]; intros km; [reflexivity|].
  cbn [foldl]. rewrite IH. unfold someColumn. cbn [existsb].
  fold (someColumn key fields).
  destruct (someColumn key fields); [by rewrite orb_true_r|].
  rewrite orb_false_r. case_bool_decide as Hkey.
  - rewrite Hkey. by apply lookup_assign_eq.
  - by apply lookup_assign_ne.
Qed.

Lemma fields_keyMap_proto (fields : list DataTableFilterField)
    (km : gmap string Nuqs.Parser) :
  foldl (λ km f, Js.assign (field_value f) Nuqs.parseAsString km) km fields
    !! "__proto__" = km !! "__proto__".
Proof.
  revert km. induction fields as [|f fields IH]; intros km; [reflexivity|].
  cbn [foldl]. rewrite IH. apply lookup_assign_proto.
Qed.

Lemma not_reserved (key : string) :
  key ∉ reservedKeys →
  key ≠ "pageIndex" ∧ key ≠ "pageSize" ∧ key ≠ "sort".
Proof.
  unfold reservedKeys. intros Hout.
  repeat split; intros ->; apply Hout; repeat constructor.
Qed.

Lemma queryState_filter_key (key : string) :
  key ∉ reservedKeys → key ≠ "__proto__" →
  queryState parseInt p sp !! key
  = if someColumn key (filterFields_of p)
    then Some (from_option QStr QNull (Nuqs.get key sp)) else None.
Proof.
  intros (Hindex & Hsize & Hsort)%not_reserved Hproto.
  unfold queryState, Nuqs.useQueryStates, keyMap.
  rewrite map_lookup_imap, !lookup_insert_ne by done.
  rewrite fields_keyMap_lookup, lookup_empty by exact Hproto.
  destruct (someColumn key (filterFields_of p)); [|reflexivity].
  cbn. unfold Nuqs.read. by destruct (Nuqs.get key sp).
Qed.

Lemma queryState_proto : queryState parseInt p sp !! "__proto__" = None.
Proof.
  unfold queryState, Nuqs.useQueryStates, keyMap.
  rewrite map_lookup_imap, !lookup_insert_ne by done.
  by rewrite fields_keyMap_proto, lookup_empty.
Qed.

Lemma queryState_pageIndex :
  queryState parseInt p sp !! "pageIndex"
  = Some (QNum (default (Js.Finite 0)
                  (Nuqs.get "pageIndex" sp ≫= parseInt))).
Proof.
  unfold queryState, Nuqs.useQueryStates, keyMap.
  rewrite map_lookup_imap, !lookup_insert_ne, lookup_insert_eq by done.
  cbn. unfold Nuqs.read. cbn.
  destruct (Nuqs.get "pageIndex" sp) as [text|]; [|reflexivity].
  cbn. by destruct (parseInt text).
Qed.

Lemma queryState_pageSize :
  queryState parseInt p sp !! "pageSize"
  = Some (QNum (default (Js.Finite (defaultPageSize_of p))
                  (Nuqs.get "pageSize" sp ≫= parseInt))).
Proof.
  unfold queryState, Nuqs.useQueryStates, keyMap.
  rewrite map_lookup_imap, !lookup_insert_ne, lookup_insert_eq by done.
  cbn. unfold Nuqs.read. cbn.
  destruct (Nuqs.get "pageSize" sp) as [text|]; [|reflexivity].
  cbn. by destruct (parseInt text).
Qed.

Lemma queryState_sort :
  queryState parseInt p sp !! "sort"
  = Some (QStr (default (defaultSort_of p) (Nuqs.get "sort" sp))).
Proof.
  unfold queryState, Nuqs.useQueryStates, keyMap.
  rewrite map_lookup_imap, lookup_insert_eq.
  cbn. unfold Nuqs.read. cbn. by destruct (Nuqs.get "sort" sp).
Qed.

(** A key that names a filter field and is neither [pageIndex], [pageSize]
    nor [__proto__] holds, in the query state, the string of its first
    parameter in the URL. *)
Lemma queryState_text (key s : string) :
  key ≠ "pageIndex" → key ≠ "pageSize" → key ≠ "__proto__" →
  (∃ field, field ∈ filterFields_of p ∧ field_value field = key) →
  Nuqs.get key sp = Some s →
  queryState parseInt p sp !! key = Some (QStr s).
Proof.
  intros Hindex Hsize Hproto Hfield Hget.
  destruct (decide (key = "sort")) as [->|Hsort].
  - by rewrite queryState_sort, Hget.
  - rewrite queryState_filter_key; [|unfold reservedKeys|exact Hproto].
    + apply someColumn_true in Hfield. by rewrite Hfield, Hget.
    + intros Hres.
      repeat (apply elem_of_cons in Hres as [Hres|Hres]; [done|]).
      by apply not_elem_of_nil in Hres.
Qed.

End QueryStateFacts.

(** A key known to differ from each reserved key is not one of them. *)
Ltac not_listed_var :=
  let H := fresh "Hlisted" in
  unfold UseDataTable.reservedKeys; intros H;
  repeat (apply elem_of_cons in H as [H|H]; [done|]);
  by apply not_elem_of_nil in H.

(** A literal string is not in a literal list of other strings. *)
Ltac not_listed :=
  let H := fresh "Hlisted" in
  intros H;
  repeat (apply elem_of_cons in H as [H|H]; [discriminate|]);
  by apply not_elem_of_nil in H.

(** X1: the query state has an entry for every filter field whose name is
    neither one of the three reserved keys nor [__proto__]: the first value
    of that parameter in the URL, or null when the URL has none. A URL
    parameter that names no filter field and no reserved key is not in the
    query state at all, and neither is [__proto__], even when a filter field
    has that name: assigning the parser under it changes the prototype of
    the key map and adds no key. *)
Theorem query_state_reads_filter_params
    (parseInt : string → option Js.Number)
    (p : UseDataTableProps) (sp : SearchParams) (key : string) :
  key ∉ UseDataTable.reservedKeys →
  (key ≠ "__proto__" →
   (∃ field, field ∈ UseDataTable.filterFields_of p
             ∧ field_value field = key) →
   UseDataTable.queryState parseInt p sp !! key
   = Some (from_option QStr QNull (Nuqs.get key sp)))
  ∧ ((∀ field, field ∈ UseDataTable.filterFields_of p →
               field_value field ≠ key) →
     UseDataTable.queryState parseInt p sp !! key = None)
  ∧ UseDataTable.queryState parseInt p sp !! "__proto__" = None.
Proof.
  intros Hkey. split; [|split].
  - intros Hproto Hfield. rewrite queryState_filter_key by done.
    apply someColumn_true in Hfield. by rewrite Hfield.
  - intros Hnone. destruct (decide (key = "__proto__")) as [->|Hproto];
      [apply queryState_proto|].
    rewrite queryState_filter_key by done.
    destruct (UseDataTable.someColumn key _) eqn:Hsome; [|reflexivity].
    apply someColumn_true in Hsome as (field & Hin & Hname).
    by destruct (Hnone field Hin).
  - apply queryState_proto.
Qed.

Lemma query_state_reads_filter_params_witness :
  let p :=
    TasksTable.useDataTableProps None false
      [ mkFilterField "Title" "title" None None;
        mkFilterField "Status" "status" None
          (Some [mkFieldOption "Todo" "todo"]);
        mkFilterField "Odd" "__proto__" None None ] 3 in
  let sp :=
    [ ("status", "todo.done"); ("status", "x"); ("utm", "mail");
      ("__proto__", "y") ] in
  UseDataTable.queryState (λ _, None) p sp !! "status"
    = Some (QStr "todo.done")
  ∧ UseDataTable.queryState (λ _, None) p sp !! "title" = Some QNull
  ∧ UseDataTable.queryState (λ _, None) p sp !! "utm" = None
  ∧ UseDataTable.queryState (λ _, None) p sp !! "__proto__" = None.
Proof.
  intros p sp. split; [|split; [|split]].
  - destruct (query_state_reads_filter_params (λ _, None) p sp "status")
      as [Hfield _]; [not_listed|].
    rewrite Hfield; [reflexivity | discriminate |]. eexists.
    split; [apply list_elem_of_further, list_elem_of_here | reflexivity].
  - destruct (query_state_reads_filter_params (λ _, None) p sp "title")
      as [Hfield _]; [not_listed|].
    rewrite Hfield; [reflexivity | discriminate |]. eexists.
    split; [apply list_elem_of_here | reflexivity].
  - destruct (query_state_reads_filter_params (λ _, None) p sp "utm")
      as (_ & Hnone & _); [not_listed|].
    apply Hnone. intros field Hin.
    repeat (apply elem_of_cons in Hin as [->|Hin]; [discriminate|]).
    apply not_elem_of_nil in Hin. destruct Hin.
  - destruct (query_state_reads_filter_params (λ _, None) p sp "utm")
      as (_ & _ & Hproto); [not_listed|]. exact Hproto.
Defined.

(** X2: from the URL to the restored column filters. For a parameter that
    is neither a reserved key nor [__proto__] and whose first value is a
    non-empty string, the hook restores the value split on the dot when the
    key names a filter field with options, and the one-element array of the
    value when it names only filter fields without options; a parameter that
    names no filter field restores nothing, whatever its value, and neither
    does [__proto__], whatever the filter fields. *)
Theorem url_restores_filters (parseInt : string → option Js.Number)
    (p : UseDataTableProps) (sp : SearchParams) (key : string) :
  let fields := UseDataTable.filterFields_of p in
  let qs := UseDataTable.queryState parseInt p sp in
  key ∉ UseDataTable.reservedKeys →
  (∀ s, key ≠ "__proto__" → Nuqs.get key sp = Some s → s ≠ EmptyString →
        UseDataTable.namesFaceted fields key →
        UseDataTable.restoredFor fields qs key
        = [mkColumnFilter key (FVArray (Js.split Js.dot s))])
  ∧ (∀ s, key ≠ "__proto__" → Nuqs.get key sp = Some s → s ≠ EmptyString →
          UseDataTable.namesSearch fields key →
          ¬ UseDataTable.namesFaceted fields key →
          UseDataTable.restoredFor fields qs key
          = [mkColumnFilter key (FVArray [s])])
  ∧ (¬ UseDataTable.namesFaceted fields key →
     ¬ UseDataTable.namesSearch fields key →
     UseDataTable.restoredFor fields qs key = [])
  ∧ UseDataTable.restoredFor fields qs "__proto__" = [].
Proof.
  intros fields qs Hkey.
  assert (Hread : ∀ s, key ≠ "__proto__" → Nuqs.get key sp = Some s →
            (∃ field, field ∈ fields ∧ field_value field = key) →
            qs !! key = Some (QStr s)).
  { intros s Hproto Hget Hfield. unfold qs.
    rewrite queryState_filter_key by done.
    apply someColumn_true in Hfield. fold fields. by rewrite Hfield, Hget. }
  split; [|split; [|split]].
  - intros s Hproto Hget Hs Hfaceted. apply restoredFor_faceted; [|done..].
    apply Hread; [done..|]. destruct Hfaceted as (field & ? & ? & _).
    eauto.
  - intros s Hproto Hget Hs Hsearch Hfaceted.
    apply restoredFor_search; [|done..].
    apply Hread; [done..|]. destruct Hsearch as (field & ? & ? & _).
    eauto.
  - intros Hfaceted Hsearch. by apply restoredFor_no_field.
  - apply restoredFor_no_text. intros s Hs. unfold qs in Hs.
    rewrite queryState_proto in Hs. discriminate.
Qed.

Lemma url_restores_filters_witness :
  let fields :=
    [ mkFilterField "Title" "title" None None;
      mkFilterField "Status" "status" None
        (Some [mkFieldOption "Todo" "todo"]) ] in
  let p := TasksTable.useDataTableProps None false fields 3 in
  let sp := [("status", "todo.done"); ("title", "fix"); ("utm", "mail")] in
  let qs := UseDataTable.queryState (λ _, None) p sp in
  UseDataTable.restoredFor fields qs "status"
    = [mkColumnFilter "status" (FVArray ["todo"; "done"])]
  ∧ UseDataTable.restoredFor fields qs "title"
    = [mkColumnFilter "title" (FVArray ["fix"])]
  ∧ UseDataTable.restoredFor fields qs "utm" = [].
Proof.
  intros fields p sp qs.
  assert (Hstatus : UseDataTable.namesFaceted fields "status").
  { eexists. split; [apply list_elem_of_further, list_elem_of_here|].
    split; [reflexivity | by eexists]. }
  assert (Htitle : UseDataTable.namesSearch fields "title").
  { eexists. split; [apply list_elem_of_here|]. split; reflexivity. }
  assert (Hfacets : ∀ key, key ≠ "status" →
            ¬ UseDataTable.namesFaceted fields key).
  { intros key Hkey (field & Hin & Hvalue & Ho).
    apply elem_of_cons in Hin as [->|Hin]; [by destruct Ho|].
    apply list_elem_of_singleton in Hin as ->. by apply Hkey. }
  assert (Hsearch : ∀ key, key ≠ "title" →
            ¬ UseDataTable.namesSearch fields key).
  { intros key Hkey (field & Hin & Hvalue & Ho).
    apply elem_of_cons in Hin as [->|Hin]; [by apply Hkey|].
    apply list_elem_of_singleton in Hin as ->. discriminate. }
  split; [|split].
  - destruct (url_restores_filters (λ _, None) p sp "status")
      as (Hf & _); [not_listed|].
    exact (Hf "todo.done" ltac:(discriminate) eq_refl ltac:(discriminate)
             Hstatus).
  - destruct (url_restores_filters (λ _, None) p sp "title")
      as (_ & Hs & _); [not_listed|].
    refine (Hs "fix" ltac:(discriminate) eq_refl ltac:(discriminate)
              Htitle _).
    apply Hfacets. discriminate.
  - destruct (url_restores_filters (λ _, None) p sp "utm")
      as (_ & _ & Hn & _); [not_listed|].
    refine (Hn _ _); [apply Hfacets | apply Hsearch]; discriminate.
Defined.

(** ** Pagination *)


(** X4: the pagination effect writes the page index and the page size and
    nothing else: reading the pagination back from what it pushes gives the
    pagination it was run with, every other key keeps its value, and run
    with the pagination the query state already holds, as on the first
    render, it pushes the query state unchanged. *)
Theorem pagination_effect_frame (qs : QueryState)
    (pagination : UseDataTable.PaginationState) :
  UseDataTable.initialPagination
    (UseDataTable.paginationEffect qs pagination) = Some pagination
  ∧ (∀ key, key ≠ "pageIndex" → key ≠ "pageSize" →
       UseDataTable.paginationEffect qs pagination !! key = qs !! key)
  ∧ (UseDataTable.initialPagination qs = Some pagination →
     UseDataTable.paginationEffect qs pagination = qs).
Proof.
  unfold UseDataTable.paginationEffect, UseDataTable.initialPagination.
  split; [|split].
  - rewrite lookup_insert_ne, !lookup_insert_eq by discriminate.
    by destruct pagination.
  - intros key Hindex Hsize. by rewrite !lookup_insert_ne.
  - intros Hsame.
    destruct (qs !! "pageIndex") as [[|index|]|] eqn:Hi; try discriminate.
    destruct (qs !! "pageSize") as [[|size|]|] eqn:Hs; try discriminate.
    injection Hsame as <-. cbn.
    rewrite (insert_id qs "pageIndex") by exact Hi.
    by apply insert_id.
Qed.

Lemma pagination_effect_frame_witness :
  let qs : QueryState :=
    <["pageIndex" := QNum 2]> (<["pageSize" := QNum 20]>
      (<["title" := QStr "fix"]> ∅)) in
  UseDataTable.paginationEffect qs (UseDataTable.mkPagination 2 20) = qs
  ∧ UseDataTable.paginationEffect qs (UseDataTable.mkPagination 3 20)
      !! "title" = Some (QStr "fix").
Proof.
  intros qs.
  destruct (pagination_effect_frame qs (UseDataTable.mkPagination 2 20))
    as (_ & _ & Hsame).
  destruct (pagination_effect_frame qs (UseDataTable.mkPagination 3 20))
    as (_ & Hother & _).
  split; [apply Hsame; reflexivity|].
  rewrite Hother by discriminate. reflexivity.
Defined.

(** ** Sorting restored from the URL *)

Section SortFacts.

Import UseDataTable.

(** No piece of a split holds the separator. *)
Lemma split_pieces_free (sep : ascii) (s : string) :
  Forall (Js.free_of sep) (Js.split sep s).
Proof.
  induction s as [|c s IH]; cbn [Js.split].
  - by apply Forall_singleton.
  - destruct (decide (c = sep)) as [_|Hc].
    + by apply Forall_cons.
    + destruct (Js.split sep s) as [|h t]; cbn [Js.cons_head].
      * by apply Forall_singleton.
      * apply Forall_cons in IH as [Hh Ht]. by apply Forall_cons.
Qed.

(** The sort parameter written for a dot-free, non-empty id is read back
    as the same entry. *)
Lemma initialSorting_written (c : ColumnSort) (restored : QueryState) :
  sort_id c ≠ EmptyString → Js.free_of Js.dot (sort_id c) →
  restored !! "sort" = Some (sortParam [c]) →
  initialSorting restored = [c].
Proof.
  intros Hid Hfree Hsort. unfold initialSorting, sortParts.
  rewrite Hsort. unfold sortParam. cbn [lookup list_lookup].
  apply truthy_true in Hid. rewrite Hid.
  change ("." +:+ (if sort_desc c then "desc" else "asc"))
    with (String Js.dot (if sort_desc c then "desc" else "asc")).
  rewrite split_prefix by exact Hfree.
  destruct c as [[] id]; reflexivity.
Qed.

Lemma initialSorting_id_free (qs : QueryState) :
  Forall (λ c, Js.free_of Js.dot (sort_id c)) (initialSorting qs).
Proof.
  unfold initialSorting. apply Forall_singleton. cbn [sort_id].
  pose proof (split_pieces_free Js.dot) as Hfree.
  unfold sortParts. destruct (qs !! "sort") as [[| |s]|]; try exact I.
  specialize (Hfree s). destruct (Js.split Js.dot s) as [|h t]; [exact I|].
  by apply Forall_cons in Hfree as [Hh _].
Qed.

End SortFacts.

(** X5: the sorting restored from any query state survives the sorting
    effect. Its column id never holds a dot; when the id is not empty, what
    the effect writes under [sort] is read back as the same sorting, and when
    it is empty the effect writes null under [sort]. *)
Theorem sort_restore_stable (qs : QueryState) :
  let sorting := UseDataTable.initialSorting qs in
  Forall (λ c, Js.free_of Js.dot (sort_id c)) sorting
  ∧ (Forall (λ c, sort_id c ≠ EmptyString) sorting →
     UseDataTable.initialSorting (UseDataTable.sortingEffect qs sorting)
     = sorting)
  ∧ (Forall (λ c, sort_id c = EmptyString) sorting →
     UseDataTable.sortingEffect qs sorting !! "sort" = Some QNull).
Proof.
  intros sorting. pose proof (initialSorting_id_free qs) as Hfree.
  fold sorting in Hfree. split; [exact Hfree|].
  assert (∃ c, sorting = [c]) as [c Hc] by (by eexists).
  rewrite Hc in *. rewrite Forall_singleton in Hfree.
  split; intros Hid; rewrite Forall_singleton in Hid.
  - apply initialSorting_written; [exact Hid | exact Hfree|].
    unfold UseDataTable.sortingEffect. apply lookup_insert_eq.
  - unfold UseDataTable.sortingEffect, UseDataTable.sortParam.
    rewrite lookup_insert_eq. cbn [lookup list_lookup].
    apply truthy_false in Hid. by rewrite Hid.
Qed.

Lemma sort_restore_stable_witness :
  let messy : QueryState := {[ "sort" := QStr "title.up.desc" ]} in
  let blank : QueryState := {[ "sort" := QStr ".desc" ]} in
  UseDataTable.initialSorting messy = [mkColumnSort false "title"]
  ∧ UseDataTable.initialSorting
      (UseDataTable.sortingEffect messy (UseDataTable.initialSorting messy))
    = UseDataTable.initialSorting messy
  ∧ UseDataTable.sortingEffect blank (UseDataTable.initialSorting blank)
      !! "sort" = Some QNull.
Proof.
  intros messy blank. split; [reflexivity|].
  destruct (sort_restore_stable messy) as (_ & Hkeep & _).
  destruct (sort_restore_stable blank) as (_ & _ & Hnull).
  split.
  - apply Hkeep. constructor; [discriminate | constructor].
  - apply Hnull. constructor; [reflexivity | constructor].
Defined.

(** X6: the sort string the hook parses is the first [sort] parameter of
    the URL and, without one, the default sort of the props. A string with
    no dot sorts that column ascending; a string [id.dir] with dot-free
    parts sorts column [id], descending exactly when [dir] is [desc]. *)
Theorem initial_sort_from_url (parseInt : string → option Js.Number)
    (p : UseDataTableProps) (sp : SearchParams) :
  let sort :=
    default (default "createdAt.desc" (defaultSort p)) (Nuqs.get "sort" sp) in
  let qs := UseDataTable.queryState parseInt p sp in
  UseDataTable.sortParts qs = Js.split Js.dot sort
  ∧ (Js.free_of Js.dot sort →
     UseDataTable.initialSorting qs = [mkColumnSort false sort])
  ∧ (∀ id dir, sort = id +:+ "." +:+ dir →
       Js.free_of Js.dot id → Js.free_of Js.dot dir →
       UseDataTable.initialSorting qs
       = [mkColumnSort (bool_decide (dir = "desc")) id]).
Proof.
  intros sort qs.
  assert (Hparts : UseDataTable.sortParts qs = Js.split Js.dot sort).
  { unfold UseDataTable.sortParts, qs. by rewrite queryState_sort. }
  split; [exact Hparts|]. unfold UseDataTable.initialSorting.
  rewrite Hparts. split.
  - intros Hfree. by rewrite split_free.
  - intros id dir -> Hid Hdir.
    change ("." +:+ dir) with (String Js.dot dir).
    rewrite split_prefix, split_free by assumption.
    cbn [lookup list_lookup default from_option].
    f_equal. f_equal. apply bool_decide_ext. split; congruence.
Qed.

Lemma initial_sort_from_url_witness :
  let fields := [mkFilterField "Title" "title" None None] in
  UseDataTable.initialSorting
    (UseDataTable.queryState (λ _, None)
       (TasksTable.variantPageProps false fields 3) [("pageIndex", "2")])
  = [mkColumnSort false "title"]
  ∧ UseDataTable.initialSorting
      (UseDataTable.queryState (λ _, None)
         (TasksTable.useDataTableProps None false fields 3) [])
    = [mkColumnSort true "createdAt"]
  ∧ UseDataTable.initialSorting
      (UseDataTable.queryState (λ _, None)
         (TasksTable.variantPageProps false fields 3) [("sort", "status")])
    = [mkColumnSort false "status"].
Proof.
  intros fields.
  destruct (initial_sort_from_url (λ _, None)
              (TasksTable.variantPageProps false fields 3)
              [("pageIndex", "2")]) as (_ & _ & Hvariant).
  destruct (initial_sort_from_url (λ _, None)
              (TasksTable.useDataTableProps None false fields 3) [])
    as (_ & _ & Hdefault).
  destruct (initial_sort_from_url (λ _, None)
              (TasksTable.variantPageProps false fields 3)
              [("sort", "status")]) as (_ & Hplain & _).
  split; [|split].
  - rewrite (Hvariant "title" "asc"); [reflexivity..| |];
      cbn; repeat split; discriminate.
  - rewrite (Hdefault "createdAt" "desc"); [reflexivity..| |];
      cbn; repeat split; discriminate.
  - rewrite Hplain; [reflexivity|]. cbn. repeat split; discriminate.
Defined.

(** ** What the restore yields and what the first sync does with it *)

Section RestoreShape.

Import UseDataTable.

Variable fields : list DataTableFilterField.
Variable qs : QueryState.

(** Joining undoes splitting, for every string. *)
Lemma join_cons_head (sep : ascii) (c : ascii) (pieces : list string) :
  pieces ≠ [] →
  Js.join (String sep EmptyString) (Js.cons_head c pieces)
  = String c (Js.join (String sep EmptyString) pieces).
Proof.
  destruct pieces as [|h [|h' t]]; [done | reflexivity | reflexivity].
Qed.

Lemma join_split (sep : ascii) (s : string) :
  Js.join (String sep EmptyString) (Js.split sep s) = s.
Proof.
  induction s as [|c s IH]; [reflexivity|]. cbn [Js.split].
  pose proof (split_not_nil sep s) as Hnil.
  destruct (decide (c = sep)) as [->|Hc].
  - destruct (Js.split sep s) as [|h t]; [done|].
    change (Js.join (String sep EmptyString) (EmptyString :: h :: t))
      with (String sep (Js.join (String sep EmptyString) (h :: t))).
    by rewrite IH.
  - rewrite join_cons_head by exact Hnil. by rewrite IH.
Qed.

(** What the reducer contributes for one key. *)
Lemma step_cases (key : string) :
  initialColumnFilters_step fields qs [] key = []
  ∨ ∃ s, qs !! key = Some (QStr s) ∧ s ≠ EmptyString
         ∧ ((namesFaceted fields key
             ∧ initialColumnFilters_step fields qs [] key
               = [mkColumnFilter key (FVArray (Js.split Js.dot s))])
            ∨ (¬ namesFaceted fields key ∧ namesSearch fields key
               ∧ initialColumnFilters_step fields qs [] key
                 = [mkColumnFilter key (FVArray [s])])).
Proof.
  unfold initialColumnFilters_step.
  destruct (qs !! key) as [[| |s]|] eqn:Hv; cbn; auto.
  destruct (Js.truthy s) eqn:Hs; cbn; [|auto].
  apply truthy_true in Hs.
  case_bool_decide as Hfac.
  - right. exists s. do 2 (split; [done|]). left. split; [|reflexivity].
    by apply filterable_named, findColumn_is_Some.
  - assert (¬ namesFaceted fields key) as Hnf.
    { intros Hn. by apply Hfac, findColumn_is_Some, filterable_named. }
    case_bool_decide as Hsea; [|by left].
    right. exists s. do 2 (split; [done|]). right.
    split; [exact Hnf|]. split; [|reflexivity].
    by apply searchable_named, findColumn_is_Some.
Qed.

(** Every restored filter comes from a key of the query state that holds a
    non-empty string and names a filter field, and its value is an array. *)
Lemma restored_elem (f : ColumnFilter) :
  f ∈ initialColumnFilters fields qs →
  ∃ s, qs !! filter_id f = Some (QStr s) ∧ s ≠ EmptyString
       ∧ ((namesFaceted fields (filter_id f)
           ∧ f = mkColumnFilter (filter_id f) (FVArray (Js.split Js.dot s)))
          ∨ (¬ namesFaceted fields (filter_id f)
             ∧ namesSearch fields (filter_id f)
             ∧ f = mkColumnFilter (filter_id f) (FVArray [s]))).
Proof.
  intros Hin.
  assert (f ∈ restoredFor fields qs (filter_id f)) as Hfor.
  { unfold restoredFor. by apply list_elem_of_filter. }
  rewrite restoredFor_step in Hfor.
  destruct (step_cases (filter_id f))
    as [Hnone|(s & Hv & Hs & [[Hn Hstep]|(Hnf & Hn & Hstep)])].
  - rewrite Hnone in Hfor. by apply not_elem_of_nil in Hfor.
  - rewrite Hstep in Hfor. apply list_elem_of_singleton in Hfor.
    exists s. do 2 (split; [done|]). by left.
  - rewrite Hstep in Hfor. apply list_elem_of_singleton in Hfor.
    exists s. do 2 (split; [done|]). by right.
Qed.

(** A list in which every key occurs at most once has distinct keys. *)
Lemma NoDup_fmap_filter {A} (g : A → string) (l : list A) :
  (∀ key, (List.length (filter (λ x, g x = key) l) ≤ 1)%nat) →
  NoDup (g <$> l).
Proof.
  induction l as [|x l IH]; intros Honce; [constructor|].
  rewrite fmap_cons. constructor.
  - intros (y & Hkey & Hin)%list_elem_of_fmap.
    specialize (Honce (g x)). rewrite filter_cons_True in Honce by done.
    assert (y ∈ filter (λ z, g z = g x) l) as Hy
      by (by apply list_elem_of_filter).
    destruct (filter (λ z, g z = g x) l); [by apply not_elem_of_nil in Hy|].
    cbn in Honce. lia.
  - apply IH. intros key. specialize (Honce key).
    destruct (decide (g x = key)) as [Hx|Hx].
    + rewrite filter_cons_True in Honce by done. cbn in Honce. lia.
    + by rewrite filter_cons_False in Honce.
Qed.

Lemma restored_ids_NoDup :
  NoDup (filter_id <$> initialColumnFilters fields qs).
Proof.
  apply NoDup_fmap_filter. intros key.
  change (filter (λ x, filter_id x = key) (initialColumnFilters fields qs))
    with (restoredFor fields qs key).
  rewrite restoredFor_step.
  destruct (step_cases key)
    as [->|(s & _ & _ & [[_ ->]|(_ & _ & ->)])]; cbn; lia.
Qed.

End RestoreShape.

(** X7: the column filters restored from a query state have pairwise
    distinct ids; each id is a key of the query state that holds a non-empty
    string and names a filter field; and each value is a non-empty array,
    never a plain string. *)
Theorem restored_filters_wellformed (fields : list DataTableFilterField)
    (qs : QueryState) :
  NoDup (filter_id <$> UseDataTable.initialColumnFilters fields qs)
  ∧ Forall
      (λ f, (∃ s, qs !! filter_id f = Some (QStr s) ∧ s ≠ EmptyString)
            ∧ (UseDataTable.namesFaceted fields (filter_id f)
               ∨ UseDataTable.namesSearch fields (filter_id f))
            ∧ ∃ items, filter_value f = FVArray items ∧ items ≠ [])
      (UseDataTable.initialColumnFilters fields qs).
Proof.
  split; [apply restored_ids_NoDup|].
  apply Forall_forall. intros f Hin.
  destruct (restored_elem fields qs f Hin)
    as (s & Hv & Hs & [[Hn ->]|(_ & Hn & ->)]); cbn.
  - split; [eauto|]. split; [by left|]. eexists. split; [reflexivity|].
    apply split_not_nil.
  - split; [eauto|]. split; [by right|]. by eexists.
Qed.

Section FirstSync.

Import UseDataTable.

Variable fields : list DataTableFilterField.

(** The search loop leaves the text under the id of a search filter that is
    the only one with its id, [__proto__] apart. *)
Lemma assignSearchable_written (filters : ColumnFiltersState)
    (params : QueryState) (f : ColumnFilter) (s : string) :
  filter_id f ≠ "__proto__" →
  filter_value f = FVString s →
  (∀ g, g ∈ filters → filter_id g = filter_id f → g = f) →
  params !! filter_id f = Some (QStr s) ∨ f ∈ filters →
  foldl assignSearchable params filters !! filter_id f = Some (QStr s).
Proof.
  intros Hproto Hvalue. revert params.
  induction filters as [|g filters IH]; intros params Honly Hstart.
  - destruct Hstart as [Hp|Hin]; [exact Hp|]. by apply not_elem_of_nil in Hin.
  - cbn [foldl]. apply IH.
    + intros g' Hin. apply Honly. by apply list_elem_of_further.
    + destruct (decide (filter_id g = filter_id f)) as [Hid|Hid].
      * left. rewrite (Honly g (list_elem_of_here _ _) Hid).
        unfold assignSearchable. rewrite Hvalue.
        by apply lookup_assign_eq.
      * destruct Hstart as [Hp|Hin].
        -- left. rewrite <- Hp. unfold assignSearchable.
           destruct (filter_value g); [|reflexivity..].
           by apply lookup_assign_ne.
        -- apply elem_of_cons in Hin as [->|Hin]; [done | by right].
Qed.

(** The search loop leaves a key alone when no filter under it holds a
    string. *)
Lemma assignSearchable_no_text (filters : ColumnFiltersState)
    (params : QueryState) (key : string) :
  (∀ g, g ∈ filters → filter_id g = key →
        ∀ t, filter_value g ≠ FVString t) →
  foldl assignSearchable params filters !! key = params !! key.
Proof.
  revert params. induction filters as [|g filters IH]; intros params Hno;
    [reflexivity|].
  cbn [foldl]. rewrite IH.
  - unfold assignSearchable.
    destruct (filter_value g) as [t| |] eqn:Hg; [|reflexivity..].
    apply lookup_assign_ne. intros Hid.
    by apply (Hno g (list_elem_of_here _ _) Hid t).
  - intros g' Hin. apply Hno. by apply list_elem_of_further.
Qed.

(** No filter of the part kept for some columns has an id that names none
    of them. *)
Lemma filtersOf_unnamed (columns : list DataTableFilterField)
    (columnFilters : ColumnFiltersState) (key : string) :
  (∀ column, column ∈ columns → field_value column ≠ key) →
  ¬ hasFilter (filtersOf columns columnFilters) key.
Proof.
  intros Hnone (f & Hin & Hid).
  apply elem_of_filtersOf in Hin as [(column & Hcol & Hname) _].
  apply (Hnone column Hcol). congruence.
Qed.

Lemma filtersOf_not_faceted (columnFilters : ColumnFiltersState)
    (key : string) :
  ¬ namesFaceted fields key →
  ¬ hasFilter (filtersOf (filterableColumns fields) columnFilters) key.
Proof.
  intros Hnf. apply filtersOf_unnamed. intros column Hcol Hname.
  apply Hnf, filterable_named. eauto.
Qed.

Lemma filtersOf_not_search (columnFilters : ColumnFiltersState)
    (key : string) :
  ¬ namesSearch fields key →
  ¬ hasFilter (filtersOf (searchableColumns fields) columnFilters) key.
Proof.
  intros Hns. apply filtersOf_unnamed. intros column Hcol Hname.
  apply Hns, searchable_named. eauto.
Qed.

(** [key] names a filter field with options, or it does not. *)
Lemma namesFaceted_dec (key : string) :
  namesFaceted fields key ∨ ¬ namesFaceted fields key.
Proof.
  destruct (someColumn key (filterableColumns fields)) eqn:Hsome.
  - left. by apply filterable_named, someColumn_true.
  - right. intros Hn%filterable_named%someColumn_true. congruence.
Qed.

Lemma namesSearch_dec (key : string) :
  namesSearch fields key ∨ ¬ namesSearch fields key.
Proof.
  destruct (someColumn key (searchableColumns fields)) eqn:Hsome.
  - left. by apply searchable_named, someColumn_true.
  - right. intros Hn%searchable_named%someColumn_true. congruence.
Qed.

End FirstSync.

(** ** What a debounced update carries *)

Section PushedText.

Import UseDataTable.

Variable fields : list DataTableFilterField.

(** A string the search loop leaves under a key was there before or is the
    text of one of the filters. *)
Lemma assignSearchable_text (filters : ColumnFiltersState)
    (params : QueryState) (key t : string) :
  foldl assignSearchable params filters !! key = Some (QStr t) →
  params !! key = Some (QStr t)
  ∨ ∃ f, f ∈ filters ∧ filter_id f = key ∧ filter_value f = FVString t.
Proof.
  revert params. induction filters as [|g filters IH]; intros params Hkey;
    [by left|].
  cbn [foldl] in Hkey. apply IH in Hkey as [Hkey|(f & Hin & Hid & Hvalue)].
  - unfold assignSearchable in Hkey.
    destruct (filter_value g) as [s| |] eqn:Hg; [|by left..].
    unfold Js.assign in Hkey. case_decide; [by left|].
    destruct (decide (filter_id g = key)) as [Hid|Hid].
    + rewrite Hid, lookup_insert_eq in Hkey. injection Hkey as ->.
      right. exists g. split; [apply list_elem_of_here | done].
    + rewrite lookup_insert_ne in Hkey by exact Hid. by left.
  - right. exists f. split; [by apply list_elem_of_further | done].
Qed.

(** Under a key that names no field with options, a string of the pushed
    query state is the text of a debounced search filter of that id, or what
    the current query state holds there. *)
Lemma pushed_text (qs : QueryState) (sp : SearchParams)
    (debounced columnFilters : ColumnFiltersState) (key t : string) :
  ¬ namesFaceted fields key →
  pushedQueryState fields qs sp debounced
    (filtersOf (filterableColumns fields) columnFilters) !! key
  = Some (QStr t) →
  (∃ f, f ∈ debounced ∧ filter_id f = key ∧ filter_value f = FVString t)
  ∨ qs !! key = Some (QStr t).
Proof.
  intros Hnf Hkey. unfold pushedQueryState in Hkey.
  apply lookup_union_Some_raw in Hkey as [Hkey|[_ Hkey]]; [|by right].
  left. unfold newParamsObject in Hkey.
  destruct (assignDeleted_cases (searchableColumns fields)
              (filterableColumns fields) debounced
              (filtersOf (filterableColumns fields) columnFilters) sp.*1
              (foldl assignFilterable
                 (foldl assignSearchable {[ "pageIndex" := QNum 0 ]}
                    debounced)
                 (filtersOf (filterableColumns fields) columnFilters), false)
              key) as [Hsame|(Hnull & _)].
  - rewrite Hsame in Hkey. cbn [fst] in Hkey.
    rewrite assignFilterable_other in Hkey
      by (by apply filtersOf_not_faceted).
    apply assignSearchable_text in Hkey as [Hkey|Hkey]; [|exact Hkey].
    destruct (decide (key = "pageIndex")) as [->|Hne].
    + rewrite lookup_singleton_eq in Hkey. discriminate.
    + rewrite lookup_singleton_ne in Hkey by done. discriminate.
  - rewrite Hnull in Hkey. discriminate.
Qed.

End PushedText.

(** C4, amended: URL updates wait for the debounce, except after a
    keystroke that also changes the faceted filters. In [useDataTable], at
    every step of every run, an event other than the timer callback that
    leaves the faceted column filters as they were makes no call; the calls
    of a step are none or one [setQueryState] with the page reset; under a
    key that names no field with options, a string of the pushed state is
    the text of a filter of the debounced value or what the current query
    state holds; and the debounced value is the one of the first render or
    one that was rendered, stayed the rendered value for at least 500 ms and
    was then published by the timer. In [DataTableAdvancedFilterItem],
    typing, a change of the URL and the passing of time make no call; the
    calls of a step are none or one [router.push] whose parameter is the
    debounced text with the variety, or is deleted when the debounced text
    is empty; and the debounced text is the empty one of the first render or
    one that has settled in the same way. *)
Theorem url_updates_wait_for_debounce (J : UseDataTable.Json)
    (p : UseDataTableProps) (qs : QueryState) (sp : SearchParams)
    (events : list UseDataTable.HookEvent) (e : UseDataTable.HookEvent)
    (E : AdvancedFilterItem.Env) (sp0 : SearchParams)
    (typing : list AdvancedFilterItem.ItemEvent)
    (key : AdvancedFilterItem.ItemEvent) :
  (let fields := UseDataTable.filterFields_of p in
   let h := (UseDataTable.hookRun J p qs sp events).1 in
   let h' := UseDataTable.receive J p h e in
   let json := Debounce.debounced (UseDataTable.debounce h') in
   let calls := (UseDataTable.hookStep J p h e).2 in
   let pushed :=
     UseDataTable.pushedQueryState fields
       (UseDataTable.currentQueryState h')
       (UseDataTable.currentSearchParams h')
       (UseDataTable.parse J json)
       (UseDataTable.filterableFilters fields h') in
   (e ≠ UseDataTable.Fire →
    UseDataTable.filterableFilters fields h'
    = UseDataTable.filterableFilters fields h →
    calls = [])
   ∧ (calls = []
      ∨ calls = [ UseDataTable.SetQueryState pushed;
                  UseDataTable.TableSetPageIndex 0 ])
   ∧ (∀ id text,
        ¬ UseDataTable.namesFaceted fields id →
        pushed !! id = Some (QStr text) →
        (∃ f, f ∈ UseDataTable.parse J json ∧ filter_id f = id
              ∧ filter_value f = FVString text)
        ∨ UseDataTable.currentQueryState h' !! id = Some (QStr text))
   ∧ (json = UseDataTable.searchableJson J fields
               (UseDataTable.initialColumnFilters fields qs)
      ∨ Debounce.settled 500 json
          (flat_map (UseDataTable.timeline J fields) (events ++ [e]))))
  ∧ (let it := (AdvancedFilterItem.itemRun E sp0 typing).1 in
     let it' := AdvancedFilterItem.receive it key in
     let text := Debounce.debounced (AdvancedFilterItem.debounce it') in
     let calls := (AdvancedFilterItem.itemStep E it key).2 in
     let push (params : SearchParams) :=
       [ AdvancedFilterItem.RouterPush
           (AdvancedFilterItem.pathname E +:+ "?" +:+
            AdvancedFilterItem.toString E params) false ] in
     ((∀ variety, key ≠ AdvancedFilterItem.VarietySelected variety) →
      key ≠ AdvancedFilterItem.Fire →
      calls = [])
     ∧ (calls = []
        ∨ (text ≠ EmptyString
           ∧ calls
             = push (AdvancedFilterItem.set (AdvancedFilterItem.selected E)
                       (text +:+ "." +:+ AdvancedFilterItem.filterVariety it')
                       (AdvancedFilterItem.currentSearchParams it')))
        ∨ (text = EmptyString
           ∧ calls
             = push (AdvancedFilterItem.delete
                       (AdvancedFilterItem.selected E)
                       (AdvancedFilterItem.currentSearchParams it'))))
     ∧ (text = EmptyString
        ∨ Debounce.settled 500 text
            (flat_map AdvancedFilterItem.timeline (typing ++ [key])))).
Proof.
  split; cbv zeta.
  - split; [|split; [|split]].
    + intros Hfire Hfaceted. rewrite hookStep_calls.
      rewrite receive_deps, hookRun_lastDeps by assumption.
      by rewrite decide_True.
    + rewrite hookStep_calls. case_decide; [by left|].
      destruct (UseDataTable.enableAdvancedFilter_of p) eqn:Hadv.
      * left. by apply effectCalls_advanced.
      * right. rewrite effectCalls_mounted; [reflexivity | exact Hadv |].
        cbn [UseDataTable.receive UseDataTable.mounted].
        by apply hookRun_mounted.
    + intros id text Hnf Hid.
      by apply (pushed_text (UseDataTable.filterFields_of p)) in Hid.
    + rewrite receive_debounce. apply debounced_settled.
  - split; [|split].
    + intros Hvariety Hfire. unfold AdvancedFilterItem.itemStep.
      rewrite decide_True; [reflexivity|].
      rewrite item_receive_deps by assumption.
      cbn [AdvancedFilterItem.receive AdvancedFilterItem.lastDeps].
      by rewrite itemRun_lastDeps.
    + unfold AdvancedFilterItem.itemStep. case_decide; [by left|].
      right. cbn [snd]. apply inputEffect_push.
    + rewrite item_receive_debounce. apply debounced_settled.
Qed.

Lemma url_updates_wait_for_debounce_witness :
  let f := [mkColumnFilter "title" (FVString "f")] in
  let fo := [mkColumnFilter "title" (FVString "fo")] in
  let J :=
    {| UseDataTable.stringify :=
         λ filters,
           if decide (filters = f) then "[title:f]"
           else if decide (filters = fo) then "[title:fo]" else "[]";
       UseDataTable.parse :=
         λ json,
           if decide (json = "[title:f]") then f
           else if decide (json = "[title:fo]") then fo else [] |} in
  let p :=
    TasksTable.useDataTableProps None false
      [mkFilterField "Title" "title" None None] 3 in
  let E :=
    {| AdvancedFilterItem.toString :=
         λ sp, Js.join "&" (map (λ kv, kv.1 +:+ "=" +:+ kv.2) sp);
       AdvancedFilterItem.numberToString := λ _, "0";
       AdvancedFilterItem.pathname := "/tasks";
       AdvancedFilterItem.selected := "title";
       AdvancedFilterItem.hasItems := false |} in
  (UseDataTable.hookStep J p
     (UseDataTable.hookRun J p ∅ []
        [UseDataTable.ColumnFiltersChanged f; UseDataTable.Tick]).1
     (UseDataTable.ColumnFiltersChanged fo)).2 = []
  ∧ (AdvancedFilterItem.itemStep E
       (AdvancedFilterItem.itemRun E []
          [AdvancedFilterItem.Typed "f"; AdvancedFilterItem.Tick]).1
       (AdvancedFilterItem.Typed "fo")).2 = [].
Proof.
  intros f fo J p E.
  pose proof (url_updates_wait_for_debounce J p ∅ []
                [UseDataTable.ColumnFiltersChanged f; UseDataTable.Tick]
                (UseDataTable.ColumnFiltersChanged fo)
                E []
                [AdvancedFilterItem.Typed "f"; AdvancedFilterItem.Tick]
                (AdvancedFilterItem.Typed "fo")) as Hstep.
  cbv zeta in Hstep. destruct Hstep as [(Hhook & _) (Hitem & _)].
  split.
  - apply Hhook; [discriminate | vm_compute; reflexivity].
  - apply Hitem; [intros variety; discriminate | discriminate].
Defined.

(** C4 as stated fails for a search field whose name is also the name of a
    field with options: the filter typed into it is one of the faceted
    column filters as well, whose JSON is a dependency of the effect that
    is not debounced, so that every keystroke makes the effect push a query
    state at once, before any timer has run. *)
Lemma keystroke_pushes_when_also_faceted :
  let f := [mkColumnFilter "title" (FVString "f")] in
  let fo := [mkColumnFilter "title" (FVString "fo")] in
  let J :=
    {| UseDataTable.stringify :=
         λ filters,
           if decide (filters = f) then "[title:f]"
           else if decide (filters = fo) then "[title:fo]" else "[]";
       UseDataTable.parse :=
         λ json,
           if decide (json = "[title:f]") then f
           else if decide (json = "[title:fo]") then fo else [] |} in
  let p :=
    TasksTable.useDataTableProps None false
      [ mkFilterField "Title" "title" None None;
        mkFilterField "Title" "title" None
          (Some [mkFieldOption "Fix" "fix"]) ] 3 in
  let qs : QueryState := <["pageIndex" := QNum 3]> ∅ in
  let keys :=
    [ UseDataTable.ColumnFiltersChanged f; UseDataTable.Tick;
      UseDataTable.ColumnFiltersChanged fo ] in
  (UseDataTable.Fire ∉ keys)
  ∧ (UseDataTable.hookRun J p qs [("pageIndex", "3")] keys).2
    = [ UseDataTable.SetMounted true;
        UseDataTable.SetQueryState (<["pageIndex" := QNum 0]> ∅);
        UseDataTable.TableSetPageIndex 0;
        UseDataTable.SetQueryState (<["pageIndex" := QNum 0]> ∅);
        UseDataTable.TableSetPageIndex 0 ]
  ∧ Debounce.debounced
      (UseDataTable.debounce
         (UseDataTable.hookRun J p qs [("pageIndex", "3")] keys).1) = "[]".
Proof.
  intros f fo J p qs keys. split; [|split].
  - intros Hin.
    repeat (apply elem_of_cons in Hin as [Hin|Hin]; [discriminate|]).
    by apply not_elem_of_nil in Hin.
  - vm_compute. reflexivity.
  - vm_compute. reflexivity.
Qed.

(** ** Faceted filters and the URL *)

(** C2, amended: for a column filter that is the only one with its id, whose
    id is not [__proto__] and names a filter field with options and none
    without, and whose value is an array of strings, the filter effect
    writes the array joined with dots under that id. When moreover the id is
    neither [pageIndex] nor [pageSize], the array is neither empty nor the
    single empty string and no item holds a dot, restoring from a URL whose
    first parameter of that id is the written string splits it back into the
    original array. *)
Theorem facet_round_trip (parseInt : string → option Js.Number)
    (p : UseDataTableProps) (qs : QueryState) (sp : SearchParams)
    (debounced columnFilters : ColumnFiltersState)
    (f : ColumnFilter) (items : list string) :
  let fields := UseDataTable.filterFields_of p in
  let faceted :=
    UseDataTable.filtersOf (UseDataTable.filterableColumns fields)
      columnFilters in
  let pushed :=
    UseDataTable.pushedQueryState fields qs sp debounced faceted in
  f ∈ columnFilters →
  filter_value f = FVArray items →
  (∀ g, g ∈ columnFilters → filter_id g = filter_id f → g = f) →
  UseDataTable.namesFaceted fields (filter_id f) →
  ¬ UseDataTable.namesSearch fields (filter_id f) →
  filter_id f ≠ "__proto__" →
  UseDataTable.filterSyncEffect false true fields qs sp debounced faceted
  = [UseDataTable.SetQueryState pushed; UseDataTable.TableSetPageIndex 0]
  ∧ pushed !! filter_id f = Some (QStr (Js.join "." items))
  ∧ (items ≠ [] → items ≠ [EmptyString] →
     Forall (Js.free_of Js.dot) items →
     filter_id f ≠ "pageIndex" → filter_id f ≠ "pageSize" →
     ∀ url : SearchParams,
       Nuqs.get (filter_id f) url = Some (Js.join "." items) →
       UseDataTable.restoredFor fields
         (UseDataTable.queryState parseInt p url) (filter_id f) = [f]).
Proof.
  intros fields faceted pushed Hin Hvalue Honly Hfaceted Hsearch Hproto.
  assert (Hfac : f ∈ faceted).
  { apply elem_of_filtersOf. split; [|exact Hin].
    by apply filterable_named. }
  split; [reflexivity|]. split.
  - unfold pushed, UseDataTable.pushedQueryState.
    apply lookup_union_Some_l. rewrite pushed_kept.
    + apply assignFilterable_written;
        [exact Hproto | exact Hvalue | | by right].
      intros g [_ Hg]%elem_of_filtersOf. by apply Honly.
    + apply isDeleted_false; [intros Hs; by destruct Hsearch|].
      intros _. by exists f.
  - intros Hnil Hblank Hfree Hindex Hsize url Hget.
    rewrite (restoredFor_faceted fields _ (filter_id f)
               (Js.join "." items)); [| | |exact Hfaceted].
    + change "."%string with (String Js.dot EmptyString).
      rewrite split_join by assumption.
      destruct f as [id value]. simpl in *. by rewrite Hvalue.
    + apply queryState_text; [done..| |exact Hget].
      destruct Hfaceted as (field & ? & ? & _). eauto.
    + intros Hempty.
      change "."%string with (String Js.dot EmptyString) in Hempty.
      apply join_empty in Hempty as [?|?]; contradiction.
Qed.

Lemma facet_round_trip_witness :
  let fields :=
    [ mkFilterField "Status" "status" None
        (Some [mkFieldOption "Todo" "todo"; mkFieldOption "Done" "done"]) ] in
  let p := TasksTable.useDataTableProps None false fields 3 in
  let f := mkColumnFilter "status" (FVArray ["todo"; "done"]) in
  let pushed :=
    UseDataTable.pushedQueryState fields ∅ []
      [] (UseDataTable.filtersOf (UseDataTable.filterableColumns fields) [f])
  in
  pushed !! "status" = Some (QStr "todo.done")
  ∧ UseDataTable.restoredFor fields
      (UseDataTable.queryState (λ _, None) p
         [("pageIndex", "0"); ("status", "todo.done")]) "status" = [f].
Proof.
  intros fields p f pushed.
  destruct (facet_round_trip (λ _, None) p ∅ [] [] [f] f ["todo"; "done"])
    as (_ & Hwritten & Hrestored).
  - apply list_elem_of_here.
  - reflexivity.
  - intros g Hg _. by apply list_elem_of_singleton in Hg.
  - eexists. split; [apply list_elem_of_here|].
    split; [reflexivity | by eexists].
  - intros (field & Hin & _ & Ho).
    apply list_elem_of_singleton in Hin as ->. discriminate.
  - discriminate.
  - split; [exact Hwritten|].
    apply Hrestored;
      [discriminate | discriminate | | discriminate | discriminate
      | reflexivity].
    repeat constructor; discriminate.
Defined.

(** C2 as stated fails on an item that holds a dot, which is restored as
    two items, and on the empty array, which is written as the empty string
    and restores no filter at all. It fails for a faceted field named
    [pageIndex]: the array is written, but the key map reads that key with
    the integer parser, so that no URL restores a filter under it. It also
    fails before the restore: of two filters with one id the later
    overwrites what the earlier wrote; when the id names a search field as
    well, and is a key of the URL without a debounced search filter, the
    last loop sets it to null; and under [__proto__] nothing is written. *)
Lemma facet_round_trip_breaks :
  let status :=
    mkFilterField "Status" "status" None
      (Some [mkFieldOption "In progress" "in.progress"]) in
  let page :=
    mkFilterField "Page" "pageIndex" None
      (Some [mkFieldOption "One" "1"; mkFieldOption "Two" "2"]) in
  let odd :=
    mkFilterField "Odd" "__proto__" None (Some [mkFieldOption "A" "a"]) in
  let pushedFor fields sp (columnFilters : ColumnFiltersState) :=
    UseDataTable.pushedQueryState fields ∅ sp []
      (UseDataTable.filtersOf (UseDataTable.filterableColumns fields)
         columnFilters) in
  let restoredFrom fields (url : SearchParams) (key : string) :=
    UseDataTable.restoredFor fields
      (UseDataTable.queryState (λ _, None)
         (TasksTable.useDataTableProps None false fields 3) url) key in
  let dotted := mkColumnFilter "status" (FVArray ["in.progress"]) in
  let empty := mkColumnFilter "status" (FVArray []) in
  let first := mkColumnFilter "status" (FVArray ["a"]) in
  let second := mkColumnFilter "status" (FVArray ["b"]) in
  let pages := mkColumnFilter "pageIndex" (FVArray ["1"; "2"]) in
  let text := mkFilterField "Status text" "status" None None in
  (pushedFor [status] [] [dotted] !! "status" = Some (QStr "in.progress")
   ∧ restoredFrom [status] [("status", "in.progress")] "status"
     = [mkColumnFilter "status" (FVArray ["in"; "progress"])]
   ∧ restoredFrom [status] [("status", "in.progress")] "status" ≠ [dotted])
  ∧ (pushedFor [status] [] [empty] !! "status" = Some (QStr EmptyString)
     ∧ restoredFrom [status] [("status", "")] "status" = []
     ∧ restoredFrom [status] [("status", "")] "status" ≠ [empty])
  ∧ (pushedFor [page] [] [pages] !! "pageIndex" = Some (QStr "1.2")
     ∧ ∀ (parseInt : string → option Js.Number) (url : SearchParams),
         UseDataTable.restoredFor [page]
           (UseDataTable.queryState parseInt
              (TasksTable.useDataTableProps None false [page] 3) url)
           "pageIndex" = [])
  ∧ pushedFor [status] [] [first; second] !! "status" = Some (QStr "b")
  ∧ pushedFor [status; text] [("status", "a")] [first] !! "status"
    = Some QNull
  ∧ pushedFor [odd] [] [mkColumnFilter "__proto__" (FVArray ["a"])]
      !! "__proto__" = None.
Proof.
  intros status page odd pushedFor restoredFrom dotted empty first second
    pages text.
  split; [|split; [|split; [|split; [|split]]]].
  - repeat split; try (vm_compute; reflexivity). vm_compute. discriminate.
  - repeat split; try (vm_compute; reflexivity). vm_compute. discriminate.
  - split; [vm_compute; reflexivity|]. intros parseInt url.
    apply restoredFor_no_text. intros t Ht.
    rewrite queryState_pageIndex in Ht. discriminate.
  - vm_compute. reflexivity.
  - vm_compute. reflexivity.
  - vm_compute. reflexivity.
Qed.

(** X8: a URL parameter stays as it is while its restored filter is left
    alone. Let a key other than [pageIndex] hold a non-empty string in the
    query state. Whenever the effect runs with column filters, and a
    debounced copy of them, in which the filters under that key are still
    the restored ones, whatever the filters under other ids have become,
    the pushed state holds the same string under the key: a faceted array is
    split and joined back, a search text is carried by the spread of the
    query state. *)
Theorem restored_param_kept (fields : list DataTableFilterField)
    (qs : QueryState) (sp : SearchParams)
    (debouncedColumnFilters columnFilters : ColumnFiltersState)
    (key s : string) :
  let debounced :=
    UseDataTable.filtersOf (UseDataTable.searchableColumns fields)
      debouncedColumnFilters in
  let faceted :=
    UseDataTable.filtersOf (UseDataTable.filterableColumns fields)
      columnFilters in
  key ≠ "pageIndex" →
  qs !! key = Some (QStr s) →
  s ≠ EmptyString →
  filter (λ g, filter_id g = key) columnFilters
    = UseDataTable.restoredFor fields qs key →
  filter (λ g, filter_id g = key) debouncedColumnFilters
    = UseDataTable.restoredFor fields qs key →
  UseDataTable.pushedQueryState fields qs sp debounced faceted !! key
  = Some (QStr s).
Proof.
  intros debounced faceted Hkey Hv Hs Hnow Hthen.
  assert (Hin : ∀ (l : ColumnFiltersState) f,
            f ∈ filter (λ g, filter_id g = key) l ↔ filter_id f = key ∧ f ∈ l).
  { intros l f. exact (list_elem_of_filter (λ g, filter_id g = key) l f). }
  unfold UseDataTable.pushedQueryState.
  destruct (namesFaceted_dec fields key) as [Hfac|Hnf].
  - (* a faceted key: written by the loop over the faceted filters *)
    pose proof (restoredFor_faceted fields qs key s Hv Hs Hfac) as Hone.
    rewrite Hone in Hnow, Hthen.
    set (f := mkColumnFilter key (FVArray (Js.split Js.dot s))) in *.
    assert (Hf : f ∈ columnFilters).
    { apply (Hin columnFilters f). rewrite Hnow. apply list_elem_of_here. }
    assert (Hfaceted : f ∈ faceted).
    { apply elem_of_filtersOf. split; [|exact Hf]. by apply filterable_named. }
    assert (Hdel : UseDataTable.isDeleted
                     (UseDataTable.searchableColumns fields)
                     (UseDataTable.filterableColumns fields)
                     debounced faceted key = false).
    { apply isDeleted_false.
      - intros Hsearch. exists f. split; [|reflexivity].
        apply elem_of_filtersOf. split; [by apply searchable_named|].
        apply (Hin debouncedColumnFilters f). rewrite Hthen.
        apply list_elem_of_here.
      - intros _. by exists f. }
    destruct (decide (key = "__proto__")) as [Hproto|Hproto].
    + (* the loop cannot write [__proto__]: carried by the spread *)
      rewrite lookup_union_r; [exact Hv|].
      rewrite pushed_kept by exact Hdel. rewrite Hproto.
      by rewrite assignFilterable_proto, assignSearchable_proto.
    + apply lookup_union_Some_l. rewrite pushed_kept by exact Hdel.
      change key with (filter_id f).
      rewrite (assignFilterable_written faceted _ f (Js.split Js.dot s));
        [| exact Hproto | reflexivity | | by right].
      * change "."%string with (String Js.dot EmptyString).
        by rewrite join_split.
      * intros g [_ Hg]%elem_of_filtersOf Hid.
        assert (g ∈ [f]) as Hgf by (rewrite <- Hnow; by apply Hin).
        by apply list_elem_of_singleton in Hgf.
  - (* any other key: untouched by the loops, carried by the spread *)
    rewrite lookup_union_r; [exact Hv|].
    rewrite pushed_kept.
    + rewrite assignFilterable_other by (by apply filtersOf_not_faceted).
      rewrite assignSearchable_no_text; [by apply lookup_singleton_ne|].
      intros g [_ Hg]%elem_of_filtersOf Hid t Ht.
      assert (g ∈ UseDataTable.restoredFor fields qs key) as Hgr
        by (rewrite <- Hthen; by apply Hin).
      unfold UseDataTable.restoredFor in Hgr.
      apply list_elem_of_filter in Hgr as [_ Hgr].
      destruct (restored_elem fields qs g Hgr)
        as (u & _ & _ & [[_ Hg']|(_ & _ & Hg')]);
        rewrite Hg' in Ht; discriminate.
    + apply isDeleted_false; [|done].
      intros Hsearch.
      pose proof (restoredFor_search fields qs key s Hv Hs Hnf Hsearch)
        as Hone.
      rewrite Hone in Hthen.
      set (f := mkColumnFilter key (FVArray [s])) in *.
      exists f. split; [|reflexivity].
      apply elem_of_filtersOf. split; [by apply searchable_named|].
      apply (Hin debouncedColumnFilters f). rewrite Hthen.
      apply list_elem_of_here.
Qed.

Lemma restored_param_kept_witness :
  let fields :=
    [ mkFilterField "Title" "title" None None;
      mkFilterField "Status" "status" None
        (Some [mkFieldOption "Todo" "todo"]);
      mkFilterField "Priority" "priority" None
        (Some [mkFieldOption "High" "high"]) ] in
  let qs : QueryState :=
    <["title" := QStr "fix"]> (<["status" := QStr "todo.done"]>
      (<["pageIndex" := QNum 3]> ∅)) in
  let sp := [("title", "fix"); ("status", "todo.done"); ("pageIndex", "3")] in
  let restored := UseDataTable.initialColumnFilters fields qs in
  let changed := restored ++ [mkColumnFilter "priority" (FVArray ["high"])] in
  let pushed :=
    UseDataTable.pushedQueryState fields qs sp
      (UseDataTable.filtersOf (UseDataTable.searchableColumns fields) restored)
      (UseDataTable.filtersOf (UseDataTable.filterableColumns fields) changed)
  in
  pushed !! "title" = Some (QStr "fix")
  ∧ pushed !! "status" = Some (QStr "todo.done")
  ∧ pushed !! "priority" = Some (QStr "high").
Proof.
  intros fields qs sp restored changed pushed. split; [|split].
  - apply (restored_param_kept fields qs sp restored changed "title" "fix");
      [discriminate | reflexivity | discriminate | |];
      vm_compute; reflexivity.
  - apply (restored_param_kept fields qs sp restored changed
             "status" "todo.done");
      [discriminate | reflexivity | discriminate | |];
      vm_compute; reflexivity.
  - vm_compute. reflexivity.
Defined.

(** ** Search filters and the URL *)

(** X9: for a debounced search filter that is the only one with its id,
    whose id is not [__proto__] and names no filter field with options, and
    whose value is a string, the filter effect writes the string under that
    id, the empty string included. Restoring from a URL whose first
    parameter of that id is that string does not give the string back: when
    the id is neither [pageIndex] nor [pageSize], a non-empty text comes back
    as the one-element array that holds it, and the empty text restores no
    filter. Under [pageIndex], [pageSize] and [__proto__] no URL restores a
    filter at all. *)
Theorem search_filter_written (parseInt : string → option Js.Number)
    (p : UseDataTableProps) (qs : QueryState) (sp : SearchParams)
    (debounced columnFilters : ColumnFiltersState)
    (f : ColumnFilter) (s : string) :
  let fields := UseDataTable.filterFields_of p in
  let faceted :=
    UseDataTable.filtersOf (UseDataTable.filterableColumns fields)
      columnFilters in
  let pushed :=
    UseDataTable.pushedQueryState fields qs sp debounced faceted in
  let restoredFrom (url : SearchParams) (key : string) :=
    UseDataTable.restoredFor fields
      (UseDataTable.queryState parseInt p url) key in
  f ∈ debounced →
  filter_value f = FVString s →
  (∀ g, g ∈ debounced → filter_id g = filter_id f → g = f) →
  ¬ UseDataTable.namesFaceted fields (filter_id f) →
  filter_id f ≠ "__proto__" →
  pushed !! filter_id f = Some (QStr s)
  ∧ (∀ url : SearchParams,
       Nuqs.get (filter_id f) url = Some s →
       filter_id f ≠ "pageIndex" → filter_id f ≠ "pageSize" →
       (s ≠ EmptyString → UseDataTable.namesSearch fields (filter_id f) →
        restoredFrom url (filter_id f)
        = [mkColumnFilter (filter_id f) (FVArray [s])])
       ∧ (s = EmptyString → restoredFrom url (filter_id f) = []))
  ∧ (∀ url : SearchParams,
       restoredFrom url "pageIndex" = []
       ∧ restoredFrom url "pageSize" = []
       ∧ restoredFrom url "__proto__" = []).
Proof.
  intros fields faceted pushed restoredFrom Hin Hvalue Honly Hnf Hproto.
  split; [|split].
  - unfold pushed, UseDataTable.pushedQueryState.
    apply lookup_union_Some_l. rewrite pushed_kept.
    + rewrite assignFilterable_other by (by apply filtersOf_not_faceted).
      apply assignSearchable_written;
        [exact Hproto | exact Hvalue | exact Honly | by right].
    + apply isDeleted_false; [|done]. intros _. by exists f.
  - intros url Hget Hindex Hsize. unfold restoredFrom. split.
    + intros Hs Hsearch. apply restoredFor_search; [|done..].
      apply queryState_text; [done..| |exact Hget].
      destruct Hsearch as (field & ? & ? & _). eauto.
    + intros ->. apply restoredFor_no_text. intros t Ht.
      destruct (decide (filter_id f = "sort")) as [Hsort|Hsort].
      * rewrite Hsort in Ht, Hget. rewrite queryState_sort, Hget in Ht.
        cbn in Ht. congruence.
      * rewrite queryState_filter_key in Ht; [|not_listed_var|exact Hproto].
        destruct (UseDataTable.someColumn _ _); [|discriminate].
        rewrite Hget in Ht. cbn in Ht. congruence.
  - intros url. unfold restoredFrom. repeat split.
    + apply restoredFor_no_text. intros t Ht.
      rewrite queryState_pageIndex in Ht. discriminate.
    + apply restoredFor_no_text. intros t Ht.
      rewrite queryState_pageSize in Ht. discriminate.
    + apply restoredFor_no_text. intros t Ht.
      rewrite queryState_proto in Ht. discriminate.
Qed.

Lemma search_filter_written_witness :
  let fields := [mkFilterField "Title" "title" None None] in
  let p := TasksTable.useDataTableProps None false fields 3 in
  let pushedFor (text : string) :=
    UseDataTable.pushedQueryState fields ∅ [("title", "old")]
      [mkColumnFilter "title" (FVString text)]
      (UseDataTable.filtersOf (UseDataTable.filterableColumns fields) []) in
  let restoredFrom (url : SearchParams) :=
    UseDataTable.restoredFor fields
      (UseDataTable.queryState (λ _, None) p url) "title" in
  (pushedFor "fix" !! "title" = Some (QStr "fix")
   ∧ restoredFrom [("pageIndex", "0"); ("title", "fix")]
     = [mkColumnFilter "title" (FVArray ["fix"])])
  ∧ (pushedFor "" !! "title" = Some (QStr "")
     ∧ restoredFrom [("pageIndex", "0"); ("title", "")] = []).
Proof.
  intros fields p pushedFor restoredFrom.
  assert (Hnf : ¬ UseDataTable.namesFaceted fields "title").
  { intros (field & Hf & _ & Ho).
    apply list_elem_of_singleton in Hf as ->. by destruct Ho. }
  assert (Hsearch : UseDataTable.namesSearch fields "title").
  { eexists. split; [apply list_elem_of_here|]. split; reflexivity. }
  split.
  - destruct (search_filter_written (λ _, None) p ∅ [("title", "old")]
                [mkColumnFilter "title" (FVString "fix")] []
                (mkColumnFilter "title" (FVString "fix")) "fix")
      as (Hw & Hr & _);
      [apply list_elem_of_here | reflexivity | | exact Hnf | discriminate |].
    { intros g Hg _. by apply list_elem_of_singleton in Hg. }
    split; [exact Hw|].
    destruct (Hr [("pageIndex", "0"); ("title", "fix")] eq_refl)
      as [Hsome _]; [discriminate | discriminate |].
    apply Hsome; [discriminate | exact Hsearch].
  - destruct (search_filter_written (λ _, None) p ∅ [("title", "old")]
                [mkColumnFilter "title" (FVString "")] []
                (mkColumnFilter "title" (FVString "")) "")
      as (Hw & Hr & _);
      [apply list_elem_of_here | reflexivity | | exact Hnf | discriminate |].
    { intros g Hg _. by apply list_elem_of_singleton in Hg. }
    split; [exact Hw|].
    destruct (Hr [("pageIndex", "0"); ("title", "")] eq_refl)
      as [_ Hnone]; [discriminate | discriminate |].
    by apply Hnone.
Defined.

(** X10: a column filter whose id names no filter field never reaches the
    URL. Whatever the column filters and their debounced copy are, the
    pushed state holds under such an id, [pageIndex] apart, what the query
    state held; and when the query state has no entry for it, neither has
    the pushed state. *)
Theorem unlisted_columns_not_synced (fields : list DataTableFilterField)
    (qs : QueryState) (sp : SearchParams)
    (debouncedColumnFilters columnFilters : ColumnFiltersState)
    (key : string) :
  ¬ UseDataTable.namesSearch fields key →
  ¬ UseDataTable.namesFaceted fields key →
  key ≠ "pageIndex" →
  UseDataTable.pushedQueryState fields qs sp
    (UseDataTable.filtersOf (UseDataTable.searchableColumns fields)
       debouncedColumnFilters)
    (UseDataTable.filtersOf (UseDataTable.filterableColumns fields)
       columnFilters) !! key
  = qs !! key.
Proof.
  intros Hns Hnf Hkey. unfold UseDataTable.pushedQueryState.
  apply lookup_union_r. rewrite pushed_kept.
  - rewrite assignFilterable_other by (by apply filtersOf_not_faceted).
    rewrite assignSearchable_other by (by apply filtersOf_not_search).
    by apply lookup_singleton_ne.
  - by apply isDeleted_false.
Qed.

Lemma unlisted_columns_not_synced_witness :
  let fields := [mkFilterField "Title" "title" None None] in
  let filters :=
    [ mkColumnFilter "priority" (FVArray ["high"]);
      mkColumnFilter "owner" (FVString "ann") ] in
  UseDataTable.pushedQueryState fields ∅
    [("priority", "low")]
    (UseDataTable.filtersOf (UseDataTable.searchableColumns fields) filters)
    (UseDataTable.filtersOf (UseDataTable.filterableColumns fields) filters)
    !! "priority" = None.
Proof.
  intros fields filters.
  rewrite (unlisted_columns_not_synced fields ∅ [("priority", "low")]
             filters filters "priority"); [reflexivity | | | discriminate].
  - intros (field & Hf & Hname & _).
    apply list_elem_of_singleton in Hf as ->. discriminate.
  - intros (field & Hf & Hname & _).
    apply list_elem_of_singleton in Hf as ->. discriminate.
Defined.

(** ** The calls of a whole run *)

Section RunFacts.

Import UseDataTable.

Variable J : Json.
Variable p : UseDataTableProps.

Lemma hookStep_calls_mounted (h : Hook) (e : HookEvent) :
  enableAdvancedFilter_of p = false → mounted h = true →
  (hookStep J p h e).2 = []
  ∨ ∃ q, (hookStep J p h e).2 = [SetQueryState q; TableSetPageIndex 0].
Proof.
  intros Hadv Hm. rewrite hookStep_calls. case_decide; [by left|].
  right. eexists. by apply effectCalls_mounted.
Qed.

End RunFacts.

(** X11: with advanced filtering off, the calls the filter effect makes
    over a whole run are one [setMounted(true)], made by the first render,
    followed by pairs of a [setQueryState] and a [table.setPageIndex(0)],
    at most one pair per event: the mounted flag is set once and never
    again, and a query state is never pushed without the page reset. *)
Theorem filter_effect_trace (J : UseDataTable.Json) (p : UseDataTableProps)
    (qs : QueryState) (sp : SearchParams)
    (events : list UseDataTable.HookEvent) :
  UseDataTable.enableAdvancedFilter_of p = false →
  ∃ pushes : list QueryState,
    (UseDataTable.hookRun J p qs sp events).2
    = UseDataTable.SetMounted true
        :: flat_map (λ q, [ UseDataTable.SetQueryState q;
                            UseDataTable.TableSetPageIndex 0 ]) pushes
    ∧ (List.length pushes ≤ List.length events)%nat.
Proof.
  intros Hadv. induction events as [|e events IH] using rev_ind.
  - exists []. split; [|reflexivity].
    unfold UseDataTable.hookRun, UseDataTable.hookMount. cbn [foldl snd].
    by apply effectCalls_first.
  - destruct IH as (pushes & Hcalls & Hlen).
    rewrite hookRun_snoc. cbn [snd]. rewrite Hcalls.
    destruct (hookStep_calls_mounted J p
                (UseDataTable.hookRun J p qs sp events).1 e Hadv)
      as [->|[q ->]]; [by apply hookRun_mounted| |].
    + exists pushes. rewrite app_nil_r, length_app. cbn. split; [done|lia].
    + exists (pushes ++ [q]). rewrite flat_map_app, !length_app. cbn.
      split; [done|lia].
Qed.

Lemma filter_effect_trace_witness :
  let typed := [mkColumnFilter "title" (FVString "foo")] in
  let J :=
    {| UseDataTable.stringify :=
         λ filters, if decide (filters = typed) then "[title:foo]" else "[]";
       UseDataTable.parse :=
         λ json, if decide (json = "[title:foo]") then typed else [] |} in
  let p :=
    TasksTable.useDataTableProps None false
      [mkFilterField "Title" "title" None None] 3 in
  ∃ pushes : list QueryState,
    (UseDataTable.hookRun J p ∅ []
       (UseDataTable.ColumnFiltersChanged typed
          :: replicate 500 UseDataTable.Tick ++ [UseDataTable.Fire])).2
    = UseDataTable.SetMounted true
        :: flat_map (λ q, [ UseDataTable.SetQueryState q;
                            UseDataTable.TableSetPageIndex 0 ]) pushes
    ∧ (List.length pushes ≤ 502)%nat.
Proof.
  intros typed J p.
  destruct (filter_effect_trace J p ∅ []
              (UseDataTable.ColumnFiltersChanged typed
                 :: replicate 500 UseDataTable.Tick ++ [UseDataTable.Fire]))
    as (pushes & Hcalls & Hlen); [reflexivity|].
  exists pushes. split; [exact Hcalls|].
  etransitivity; [exact Hlen|]. vm_compute. reflexivity.
Defined.

Section ItemRunFacts.

Import AdvancedFilterItem.

Variable E : Env.

(** The two conditions of the effect exclude each other and leave no case
    out: each run makes one call. *)
Lemma inputEffect_one_call (sp : SearchParams)
    (debounceValue filterVariety : string) :
  ∃ href,
    inputEffect (toString E) (numberToString E) (pathname E) sp
      (selected E) debounceValue filterVariety = [RouterPush href false].
Proof.
  unfold inputEffect. rewrite length_zero_truthy, length_pos_truthy.
  destruct (Js.truthy debounceValue); by eexists.
Qed.

End ItemRunFacts.

(** X12: a change of the URL alone runs neither effect, since neither lists
    the query state or the search parameters among its dependencies: at any
    point of any run it makes no call, and it leaves the new URL in place for
    the next run of the effect. *)
Theorem url_change_runs_no_effect (J : UseDataTable.Json)
    (p : UseDataTableProps) (qs : QueryState) (sp : SearchParams)
    (events : list UseDataTable.HookEvent)
    (qs' : QueryState) (sp' : SearchParams)
    (E : AdvancedFilterItem.Env) (sp0 : SearchParams)
    (typing : list AdvancedFilterItem.ItemEvent) :
  (let h := (UseDataTable.hookRun J p qs sp events).1 in
   let h' := (UseDataTable.hookStep J p h (UseDataTable.UrlChanged qs' sp')).1
   in
   (UseDataTable.hookStep J p h (UseDataTable.UrlChanged qs' sp')).2 = []
   ∧ UseDataTable.currentQueryState h' = qs'
   ∧ UseDataTable.currentSearchParams h' = sp')
  ∧ (let it := (AdvancedFilterItem.itemRun E sp0 typing).1 in
     let it' :=
       (AdvancedFilterItem.itemStep E it
          (AdvancedFilterItem.UrlChanged sp')).1 in
     (AdvancedFilterItem.itemStep E it (AdvancedFilterItem.UrlChanged sp')).2
       = []
     ∧ AdvancedFilterItem.currentSearchParams it' = sp').
Proof.
  split; cbv zeta.
  - assert (Hsame :
      UseDataTable.depsOf J (UseDataTable.filterFields_of p)
        (UseDataTable.receive J p (UseDataTable.hookRun J p qs sp events).1
           (UseDataTable.UrlChanged qs' sp'))
      = UseDataTable.lastDeps
          (UseDataTable.receive J p (UseDataTable.hookRun J p qs sp events).1
             (UseDataTable.UrlChanged qs' sp'))).
    { cbn [UseDataTable.receive UseDataTable.lastDeps].
      by rewrite hookRun_lastDeps. }
    unfold UseDataTable.hookStep. rewrite decide_True by exact Hsame.
    repeat split.
  - assert (Hsame :
      AdvancedFilterItem.depsOf
        (AdvancedFilterItem.receive (AdvancedFilterItem.itemRun E sp0 typing).1
           (AdvancedFilterItem.UrlChanged sp'))
      = AdvancedFilterItem.lastDeps
          (AdvancedFilterItem.receive
             (AdvancedFilterItem.itemRun E sp0 typing).1
             (AdvancedFilterItem.UrlChanged sp'))).
    { cbn [AdvancedFilterItem.receive AdvancedFilterItem.lastDeps].
      by rewrite itemRun_lastDeps. }
    unfold AdvancedFilterItem.itemStep. rewrite decide_True by exact Hsame.
    repeat split.
Qed.

(** ** The filter variety *)

(** X13: picking a filter variety is not debounced. At any point of any
    run, a variety other than the current one makes the input effect run at
    once, with the debounced text as it is and the new variety; picking the
    current variety again makes no call; and a run of the effect always
    makes exactly one [router.push], without scrolling. *)
Theorem variety_change_pushes_at_once (E : AdvancedFilterItem.Env)
    (sp0 : SearchParams) (typing : list AdvancedFilterItem.ItemEvent)
    (variety : string) :
  let it := (AdvancedFilterItem.itemRun E sp0 typing).1 in
  let step :=
    AdvancedFilterItem.itemStep E it
      (AdvancedFilterItem.VarietySelected variety) in
  (variety ≠ AdvancedFilterItem.filterVariety it →
   step.2
   = AdvancedFilterItem.inputEffect (AdvancedFilterItem.toString E)
       (AdvancedFilterItem.numberToString E) (AdvancedFilterItem.pathname E)
       (AdvancedFilterItem.currentSearchParams it)
       (AdvancedFilterItem.selected E)
       (Debounce.debounced (AdvancedFilterItem.debounce it)) variety
   ∧ ∃ href, step.2 = [AdvancedFilterItem.RouterPush href false])
  ∧ (variety = AdvancedFilterItem.filterVariety it → step.2 = []).
Proof.
  cbv zeta. set (it := (AdvancedFilterItem.itemRun E sp0 typing).1).
  assert (Hlast : AdvancedFilterItem.lastDeps
                    (AdvancedFilterItem.receive it
                       (AdvancedFilterItem.VarietySelected variety))
                  = (Debounce.debounced (AdvancedFilterItem.debounce it),
                     AdvancedFilterItem.filterVariety it)).
  { cbn [AdvancedFilterItem.receive AdvancedFilterItem.lastDeps].
    apply itemRun_lastDeps. }
  assert (Hdeps : AdvancedFilterItem.depsOf
                    (AdvancedFilterItem.receive it
                       (AdvancedFilterItem.VarietySelected variety))
                  = (Debounce.debounced (AdvancedFilterItem.debounce it),
                     variety)) by reflexivity.
  unfold AdvancedFilterItem.itemStep. cbv zeta. rewrite Hdeps, Hlast.
  split.
  - intros Hnew. rewrite decide_False by (intros [= Heq]; by apply Hnew).
    cbn [snd]. split; [reflexivity|]. apply inputEffect_one_call.
  - intros ->. by rewrite decide_True.
Qed.

Lemma variety_change_pushes_at_once_witness :
  let E :=
    {| AdvancedFilterItem.toString :=
         λ sp, Js.join "&" (map (λ kv, kv.1 +:+ "=" +:+ kv.2) sp);
       AdvancedFilterItem.numberToString := λ _, "0";
       AdvancedFilterItem.pathname := "/tasks";
       AdvancedFilterItem.selected := "title";
       AdvancedFilterItem.hasItems := false |} in
  let typing :=
    AdvancedFilterItem.Typed "foo"
      :: replicate 500 AdvancedFilterItem.Tick ++ [AdvancedFilterItem.Fire] in
  let it := (AdvancedFilterItem.itemRun E [] typing).1 in
  (AdvancedFilterItem.itemStep E it
     (AdvancedFilterItem.VarietySelected "is not")).2
  = [AdvancedFilterItem.RouterPush "/tasks?title=foo.is not" false]
  ∧ (AdvancedFilterItem.itemStep E it
       (AdvancedFilterItem.VarietySelected "contains")).2 = [].
Proof.
  intros E typing it.
  destruct (variety_change_pushes_at_once E [] typing "is not")
    as [Hnew _].
  destruct (variety_change_pushes_at_once E [] typing "contains")
    as [_ Hsame].
  split.
  - destruct Hnew as [Hcalls _]; [vm_compute; discriminate|].
    etransitivity; [exact Hcalls|]. vm_compute. reflexivity.
  - apply Hsame. vm_compute. reflexivity.
Defined.

(** ** [createQueryString] with several parameters *)

Section CreateQueryString.

Import AdvancedFilterItem.

Variable numberToString : Z → string.

(** Entries under other keys do not touch the values of [key]. *)
Lemma newSearchParams_getAll_other (params : list (string * ParamValue))
    (sp : SearchParams) (key : string) :
  key ∉ params.*1 →
  getAll key (newSearchParams numberToString sp params) = getAll key sp.
Proof.
  unfold newSearchParams, getAll. revert sp.
  induction params as [|[k v] params IH]; intros sp Hout; [reflexivity|].
  cbn [foldl]. rewrite IH.
  - f_equal. unfold applyParam. cbn [fst snd].
    assert (Hk : ∀ kv : string * string, kv.1 = key → kv.1 ≠ k).
    { intros kv Hkv Heq. apply Hout. rewrite fmap_cons. cbn.
      rewrite <- Heq, Hkv. apply list_elem_of_here. }
    destruct v; [by apply filter_delete | by apply filter_set..].
  - intros Hin. apply Hout. rewrite fmap_cons. by apply list_elem_of_further.
Qed.

End CreateQueryString.

(** X14: [createQueryString] with several parameters. When the keys of
    [params] are distinct, every key of [params] ends with exactly one
    value, the string of its entry, or with none when the entry is null,
    however many values it had in the URL and whatever the other entries
    are. *)
Theorem create_query_string_entries (numberToString : Z → string)
    (sp : SearchParams)
    (params : list (string * AdvancedFilterItem.ParamValue))
    (key : string) (value : AdvancedFilterItem.ParamValue) :
  NoDup params.*1 →
  (key, value) ∈ params →
  AdvancedFilterItem.getAll key
    (AdvancedFilterItem.newSearchParams numberToString sp params)
  = match value with
    | AdvancedFilterItem.PNull => []
    | _ => [AdvancedFilterItem.String_ numberToString value]
    end.
Proof.
  revert sp. induction params as [|[k v] params IH]; intros sp Hnd Hin.
  - by apply not_elem_of_nil in Hin.
  - rewrite fmap_cons in Hnd. apply NoDup_cons in Hnd as [Hk Hnd].
    unfold AdvancedFilterItem.newSearchParams. cbn [foldl].
    fold (AdvancedFilterItem.newSearchParams numberToString
            (AdvancedFilterItem.applyParam numberToString sp (k, v)) params).
    apply elem_of_cons in Hin as [[= <- <-]|Hin].
    + rewrite newSearchParams_getAll_other by exact Hk.
      unfold AdvancedFilterItem.applyParam. cbn [fst snd].
      destruct value; [apply getAll_delete | apply getAll_set..].
    + by apply IH.
Qed.

Lemma create_query_string_entries_witness :
  let sp := [("page", "2"); ("title", "a"); ("page", "9"); ("sort", "x")] in
  let params :=
    [ ("page", AdvancedFilterItem.PNumber 1);
      ("sort", AdvancedFilterItem.PNull);
      ("status", AdvancedFilterItem.PString "todo") ] in
  let result := AdvancedFilterItem.newSearchParams (λ _, "1") sp params in
  result = [("page", "1"); ("title", "a"); ("status", "todo")]
  ∧ AdvancedFilterItem.getAll "page" result = ["1"]
  ∧ AdvancedFilterItem.getAll "sort" result = []
  ∧ AdvancedFilterItem.getAll "status" result = ["todo"].
Proof.
  intros sp params result.
  assert (Hnd : NoDup params.*1).
  { cbn. repeat (constructor; [not_listed|]). constructor. }
  split; [reflexivity|]. split; [|split].
  - apply (create_query_string_entries (λ _, "1") sp params "page"
             (AdvancedFilterItem.PNumber 1) Hnd). apply list_elem_of_here.
  - apply (create_query_string_entries (λ _, "1") sp params "sort"
             AdvancedFilterItem.PNull Hnd).
    apply list_elem_of_further, list_elem_of_here.
  - apply (create_query_string_entries (λ _, "1") sp params "status"
             (AdvancedFilterItem.PString "todo") Hnd).
    do 2 apply list_elem_of_further. apply list_elem_of_here.
Defined.

(** ** The calls of the advanced filter item *)

Section ItemTrace.

Import AdvancedFilterItem.

Variable E : Env.

Lemma itemStep_calls (it : Item) (e : ItemEvent) :
  (itemStep E it e).2 = []
  ∨ ∃ href, (itemStep E it e).2 = [RouterPush href false].
Proof.
  unfold itemStep. case_decide; [by left|]. right. cbn [snd].
  apply inputEffect_one_call.
Qed.

End ItemTrace.

(** X15: the first render of the advanced filter item pushes the URL with
    its own parameter deleted, whatever the URL held under it; and over a
    whole run every call is a [router.push] without scrolling, the first of
    them that deletion, with at most one more per event. *)
Theorem item_mount_deletes_param (E : AdvancedFilterItem.Env)
    (sp : SearchParams) (events : list AdvancedFilterItem.ItemEvent) :
  ∃ later : list string,
    (AdvancedFilterItem.itemRun E sp events).2
    = AdvancedFilterItem.RouterPush
        (AdvancedFilterItem.pathname E +:+ "?" +:+
         AdvancedFilterItem.toString E
           (AdvancedFilterItem.delete (AdvancedFilterItem.selected E) sp))
        false
        :: map (λ href, AdvancedFilterItem.RouterPush href false) later
    ∧ (List.length later ≤ List.length events)%nat
    ∧ AdvancedFilterItem.getAll (AdvancedFilterItem.selected E)
        (AdvancedFilterItem.delete (AdvancedFilterItem.selected E) sp) = [].
Proof.
  induction events as [|e events IH] using rev_ind.
  - exists []. split; [reflexivity|]. split; [reflexivity|].
    apply getAll_delete.
  - destruct IH as (later & Hcalls & Hlen & Hgone).
    rewrite itemRun_snoc. cbn [snd]. rewrite Hcalls.
    destruct (itemStep_calls E (AdvancedFilterItem.itemRun E sp events).1 e)
      as [->|[href ->]].
    + exists later. rewrite app_nil_r, length_app. cbn.
      split; [done|]. split; [lia | exact Hgone].
    + exists (later ++ [href]). rewrite map_app, !length_app. cbn.
      split; [done|]. split; [lia | exact Hgone].
Qed.

(** ** Which keys the filter effect sets to null *)

Section NullKeys.

Import UseDataTable.

Lemma assignSearchable_not_null (filters : ColumnFiltersState)
    (params : QueryState) (key : string) :
  params !! key ≠ Some QNull →
  foldl assignSearchable params filters !! key ≠ Some QNull.
Proof.
  revert params. induction filters as [|f filters IH]; intros params Hp;
    [exact Hp|].
  cbn [foldl]. apply IH. unfold assignSearchable.
  destruct (filter_value f); [|exact Hp..].
  unfold Js.assign. case_decide; [exact Hp|].
  destruct (decide (filter_id f = key)) as [->|Hne].
  - rewrite lookup_insert_eq. discriminate.
  - by rewrite lookup_insert_ne.
Qed.

Lemma assignFilterable_not_null (filters : ColumnFiltersState)
    (params : QueryState) (key : string) :
  params !! key ≠ Some QNull →
  foldl assignFilterable params filters !! key ≠ Some QNull.
Proof.
  revert params. induction filters as [|f filters IH]; intros params Hp;
    [exact Hp|].
  cbn [foldl]. apply IH. unfold assignFilterable.
  destruct (filter_value f); [exact Hp| |exact Hp].
  unfold Js.assign. case_decide; [exact Hp|].
  destruct (decide (filter_id f = key)) as [->|Hne].
  - rewrite lookup_insert_eq. discriminate.
  - by rewrite lookup_insert_ne.
Qed.

(** What the first two loops leave under a key is never null. *)
Lemma loops_not_null (debounced faceted : ColumnFiltersState)
    (key : string) :
  foldl assignFilterable
    (foldl assignSearchable {[ "pageIndex" := QNum 0 ]} debounced) faceted
    !! key ≠ Some QNull.
Proof.
  apply assignFilterable_not_null, assignSearchable_not_null.
  destruct (decide (key = "pageIndex")) as [->|Hne].
  - rewrite lookup_singleton_eq. discriminate.
  - rewrite lookup_singleton_ne by done. discriminate.
Qed.

(** The last loop and the key [__proto__]: the first assignment of null
    under it only takes the prototype away, every later one finds no setter
    and writes the key. *)
Lemma assignDeleted_proto (searchable filterable : list DataTableFilterField)
    (debounced faceted : ColumnFiltersState) (keys : list string)
    (acc : QueryState * bool) :
  (foldl (assignDeleted searchable filterable debounced faceted) acc keys).1
    !! "__proto__"
  = if isDeleted searchable filterable debounced faceted "__proto__"
       && bool_decide
            ((if acc.2 then 1 else 2)
             ≤ List.length (filter (λ k, k = "__proto__") keys))%nat
    then Some QNull else acc.1 !! "__proto__".
Proof.
  revert acc. induction keys as [|k keys IH]; intros acc.
  - cbn [foldl]. rewrite filter_nil, bool_decide_eq_false_2.
    + by rewrite andb_false_r.
    + cbn. destruct acc.2; lia.
  - cbn [foldl]. rewrite IH. destruct (decide (k = "__proto__")) as [->|Hk].
    + rewrite filter_cons_True by done. unfold assignDeleted.
      destruct (isDeleted _ _ _ _ "__proto__") eqn:Hdel; cbn [andb];
        [|reflexivity].
      rewrite decide_True by done. destruct acc as [o []]; cbn [fst snd].
      * rewrite lookup_insert_eq.
        rewrite (bool_decide_eq_true_2
                   (1 ≤ List.length ("__proto__" :: _))%nat) by (cbn; lia).
        by case_bool_decide.
      * do 2 case_bool_decide; cbn in *; first [reflexivity | lia].
    + rewrite filter_cons_False by done. unfold assignDeleted.
      destruct (isDeleted _ _ _ _ k); [|reflexivity].
      rewrite decide_False by done. cbn [fst snd].
      by rewrite lookup_insert_ne.
Qed.

End NullKeys.

(** X16: the filter effect sets a key to null only to remove a stale
    parameter. Call a key stale when it is a key of the current search
    parameters that names a search field without a debounced search filter
    of that id, or a field with options without a faceted filter of that id.
    Among the parameters the effect adds to the query state, every null key
    is stale, so that a key that is not in the URL is never set to null, and
    every stale key other than [__proto__] is null. The key [__proto__] is
    null only when it is stale and occurs at least twice in the URL: the
    first assignment of null under it takes the prototype of the object away
    and adds no entry. *)
Theorem only_stale_keys_nulled (fields : list DataTableFilterField)
    (sp : SearchParams) (debounced faceted : ColumnFiltersState)
    (key : string) :
  let null :=
    UseDataTable.newParamsObject fields sp debounced faceted !! key
    = Some QNull in
  let unfiltered :=
    (UseDataTable.namesSearch fields key
     ∧ ¬ UseDataTable.hasFilter debounced key)
    ∨ (UseDataTable.namesFaceted fields key
       ∧ ¬ UseDataTable.hasFilter faceted key) in
  (null → key ∈ sp.*1 ∧ unfiltered)
  ∧ (key ≠ "__proto__" → key ∈ sp.*1 ∧ unfiltered → null)
  ∧ (key = "__proto__" →
     (null ↔ unfiltered
             ∧ (2 ≤ List.length (filter (λ k, k = key) sp.*1))%nat)).
Proof.
  intros null unfiltered. unfold null, unfiltered.
  rewrite <- isDeleted_true. unfold UseDataTable.newParamsObject.
  pose proof (loops_not_null debounced faceted key) as Hloops.
  split; [|split].
  - intros Hnull.
    destruct (assignDeleted_cases (UseDataTable.searchableColumns fields)
                (UseDataTable.filterableColumns fields) debounced faceted
                sp.*1
                (foldl UseDataTable.assignFilterable
                   (foldl UseDataTable.assignSearchable
                      {[ "pageIndex" := QNum 0 ]} debounced) faceted, false)
                key) as [Hsame|(_ & Hin & Hdel)]; [|done].
    rewrite Hsame in Hnull. by destruct Hloops.
  - intros Hproto [Hin Hdel].
    rewrite assignDeleted_lookup, Hdel by exact Hproto.
    by rewrite bool_decide_eq_true_2.
  - intros ->. rewrite assignDeleted_proto. cbn [fst snd].
    destruct (UseDataTable.isDeleted _ _ debounced faceted "__proto__");
      cbn [andb].
    + case_bool_decide as Htwice.
      * split; [by intros _ | reflexivity].
      * split; [by intros Hnull | by intros [_ ?]].
    + split; [by intros Hnull | by intros [? _]].
Qed.

Lemma only_stale_keys_nulled_witness :
  let fields :=
    [ mkFilterField "Title" "title" None None;
      mkFilterField "Status" "status" None
        (Some [mkFieldOption "Todo" "todo"]);
      mkFilterField "Odd" "__proto__" None None ] in
  let sp := [("title", "old"); ("page", "2"); ("__proto__", "x")] in
  UseDataTable.newParamsObject fields sp [] [] !! "title" = Some QNull
  ∧ UseDataTable.newParamsObject fields sp [] [] !! "status" ≠ Some QNull
  ∧ UseDataTable.newParamsObject fields sp [] [] !! "__proto__" ≠ Some QNull
  ∧ UseDataTable.newParamsObject fields (sp ++ sp) [] [] !! "__proto__"
    = Some QNull.
Proof.
  intros fields sp.
  assert (Hodd : UseDataTable.namesSearch fields "__proto__").
  { eexists. split; [do 2 apply list_elem_of_further; apply list_elem_of_here|].
    split; reflexivity. }
  assert (Hnone : ∀ key, ¬ UseDataTable.hasFilter [] key).
  { intros key (f & Hin & _). apply not_elem_of_nil in Hin. destruct Hin. }
  split; [|split; [|split]].
  - destruct (only_stale_keys_nulled fields sp [] [] "title")
      as (_ & Hstale & _).
    apply Hstale; [discriminate|]. split; [apply list_elem_of_here|].
    left. split; [|apply Hnone].
    eexists. split; [apply list_elem_of_here|]. split; reflexivity.
  - intros Hnull.
    destruct (only_stale_keys_nulled fields sp [] [] "status")
      as (Honly & _).
    destruct (Honly Hnull) as [Hin _]. revert Hin. cbn. not_listed.
  - intros Hnull.
    destruct (only_stale_keys_nulled fields sp [] [] "__proto__")
      as (_ & _ & Hproto).
    destruct (Hproto eq_refl) as [Htwice _].
    destruct (Htwice Hnull) as [_ Hcount]. vm_compute in Hcount. lia.
  - destruct (only_stale_keys_nulled fields (sp ++ sp) [] [] "__proto__")
      as (_ & _ & Hproto).
    destruct (Hproto eq_refl) as [_ Htwice]. apply Htwice.
    split; [left; split; [exact Hodd | apply Hnone]|].
    vm_compute. lia.
Defined.
